(** * Dungeon Hero: the turn-resolution engine of [game.py]

    A shallow embedding of [GameEngine] (src/game.py): the world snapshot
    [game_state], the action resolver [_handle_game_action], the inventory
    handler, the pickup rule, the enemy turn, the status-effect ticker and
    the level transitions.

    The classes the engine imports from the packages core, systems and
    renderer are not part of the source under study.  Their operations are
    the fields of the interface [Collaborators]; every theorem holds for
    every implementation of that interface unless it names a law it needs.  The [Player]
    methods whose behaviour the specification pins down are written out.

    Python objects held in a list are distinct objects: a reference into the
    list is a slot number, mutating the object rewrites the slot, and
    [list.remove(obj)] deletes the slot. *)

From Stdlib Require Import ZArith String Ascii Bool Lia DecimalString List Permutation.
Import ListNotations.
Local Open Scope string_scope.
Local Open Scope list_scope.
Local Open Scope Z_scope.

(** ** Python values *)

Module Py.

(** [l[i]]: a negative index counts from the end; [None] is IndexError. *)
Definition getitem {A : Type} (l : list A) (i : Z) : option A :=
  let n := Z.of_nat (length l) in
  if (0 <=? i) && (i <? n) then nth_error l (Z.to_nat i)
  else if (- n <=? i) && (i <? 0) then nth_error l (Z.to_nat (n + i))
  else None.

(** [l[start:]]. *)
Definition slice_from {A : Type} (start : Z) (l : list A) : list A :=
  let n := Z.of_nat (length l) in
  if start <? 0 then skipn (Z.to_nat (Z.max 0 (n + start))) l
  else skipn (Z.to_nat start) l.

(** Truth value of an optional message: [None] and [''] are false. *)
Definition truthy (m : option string) : bool :=
  match m with
  | Some (String _ _) => true
  | _ => false
  end.

(** [str(n)] for an int. *)
Definition str (n : Z) : string := NilZero.string_of_int (Z.to_int n).

(** [sep.join(l)]. *)
Definition join (sep : string) (l : list string) : string := String.concat sep l.

(** Number of iterations of [for _ in range(n)]. *)
Definition range (n : Z) : nat := Z.to_nat n.

End Py.

(** Slot-wise list operations. *)

(** Rewrite slot [i] (the object in slot [i] was mutated). *)
Fixpoint set_slot {A : Type} (i : nat) (x : A) (l : list A) : list A :=
  match l, i with
  | [], _ => []
  | _ :: t, O => x :: t
  | h :: t, S j => h :: set_slot j x t
  end.

(** Delete slot [i] ([l.remove(obj)] for the object in slot [i]). *)
Fixpoint del_slot {A : Type} (i : nat) (l : list A) : list A :=
  match l, i with
  | [], _ => []
  | _ :: t, O => t
  | h :: t, S j => h :: del_slot j t
  end.

(** Delete every slot listed in [dead]; [i] is the slot number of the head. *)
Fixpoint del_slots_from {A : Type} (i : nat) (dead : list nat) (l : list A) : list A :=
  match l with
  | [] => []
  | h :: t =>
      if existsb (Nat.eqb i) dead then del_slots_from (S i) dead t
      else h :: del_slots_from (S i) dead t
  end.

Definition del_slots {A : Type} (dead : list nat) (l : list A) : list A :=
  del_slots_from 0 dead l.

(** ** Data model *)

Inductive Exn := IndexError.

(** [systems.input_handler.Action]: the members [game.py] names, and one
    constructor for every other member of the enumeration. *)
Inductive Action :=
| MOVE_UP | MOVE_DOWN | MOVE_LEFT | MOVE_RIGHT
| MOVE_UP_LEFT | MOVE_UP_RIGHT | MOVE_DOWN_LEFT | MOVE_DOWN_RIGHT
| WAIT | INVENTORY | HELP | NUMBER_9 | QUIT | ESC | USE_ITEM | DROP_ITEM
| OTHER_ACTION (n : nat).

Record Position := mkPosition { pos_x : Z; pos_y : Z }.

Definition Grid := list (list ascii).
Definition Mask := list (list bool).

(** Types of the collaborator classes that the engine only passes around. *)
Class Opaque := {
  Enemy : Type;        (* core.entity.Enemy *)
  EnemyConfig : Type;
  ItemConfig : Type;
  ItemData : Type;     (* attributes of an Item the engine never reads *)
  PlayerData : Type;   (* attributes of the Player the engine never reads *)
  Room : Type;
  Trap : Type;
  Ext : Type           (* state private to the collaborators: random generator,
                          trap system, save slots *)
}.

Section Engine.

Context {Ty : Opaque}.

Record Item := mkItem {
  item_name : string;
  item_category : string;
  item_value : Z;
  item_position : Position;
  item_data : ItemData
}.

Record Player := mkPlayer {
  position : Position;
  atk : Z;
  gold : Z;
  inventory : list Item;
  max_inventory : Z;
  temp_atk_duration : option Z;   (* [None]: the attribute is absent *)
  player_data : PlayerData
}.

Record DungeonData := mkDungeonData {
  dd_map : Grid;
  dd_rooms : list Room;
  dd_width : Z;
  dd_height : Z;
  dd_stairs_up : option Position;
  dd_stairs_down : option Position;
  dd_player_start : Position
}.

(** [self.game_state]. *)
Record GameState := mkGameState {
  current_level : Z;
  game_map : Grid;
  explored : Mask;
  visible : Mask;
  rooms : list Room;
  player : Player;
  enemies : list Enemy;
  items : list Item;
  traps : list Trap;
  messages : list string;
  stairs_up : option Position;
  stairs_down : option Position;
  width : Z;
  height : Z
}.

(** What the engine does to the outside, in order: log lines, calls into
    collaborators, and the entry of each of its own turn phases. *)
Inductive Event :=
| LogInfo (m : string)                        (* self.logger.info *)
| Attack (slot : nat)                         (* combat_system.attack on enemies[slot] *)
| GainXp (amount : Z)
| CheckLevelUp
| RemoveEnemy (slot : nat)
| EnemyTurnPass                               (* entry of _enemy_turn *)
| EnemyActed (slot : nat) (player_alive : bool) (* combat_system.enemy_take_turn *)
| PurgeDead (slots : list nat)
| PoisonTick (message : option string) (player_alive : bool)
                                              (* trap_system.update_player_poison *)
| BuffTick                                    (* entry of _update_temporary_effects *)
| MoveTo (x y : Z)                            (* player.move_to *)
| TrapCheck (x y : Z)                         (* trap_system.check_trap_at *)
| RemoveTriggeredTraps
| PickupCheck                                 (* entry of _check_pickup_item *)
| GoDownstairs
| GoUpstairs
| Generate (level : Z)                        (* dungeon_generator.generate *)
| GenerateTraps (level : Z)
| UpdateFov
| UseItem
| EquipItem
| SaveGame (slot : Z)
| RenderInventory
| RenderHelp
| RenderGameOver (is_victory : bool)
| WaitForKey.

(** The [GameEngine] object. *)
Record GameEngine := mkGameEngine {
  game_state : GameState;
  running : bool;
  showing_inventory : bool;
  selected_item_index : Z;
  current_save_slot : Z;
  ext : Ext;
  trace : list Event
}.

(** Result of a method call: it returns, or an exception leaves it; the
    mutations made before the exception stay. *)
Inductive Outcome :=
| Returned (s : GameEngine)
| Raised (e : Exn) (s : GameEngine).

Definition final (o : Outcome) : GameEngine :=
  match o with Returned s => s | Raised _ s => s end.

(** ** Collaborators *)

Class Collaborators := {
  (* core.config.Config *)
  cfg_max_messages : option Z;      (* config.game.get('max_messages') *)
  cfg_total_levels : option Z;      (* config.game.get('total_levels') *)
  cfg_enemies : list (string * EnemyConfig);
  cfg_min_level : EnemyConfig -> option Z;
  cfg_get_enemy_config : string -> EnemyConfig;
  cfg_item : string -> string -> ItemConfig;
  (* core.entity *)
  player_is_alive : Player -> bool;
  gain_xp : Player -> Z -> Player;
  enemy_is_alive : Enemy -> bool;
  enemy_position : Enemy -> Position;
  xp_reward : Enemy -> Z;
  new_enemy : Z -> Z -> string -> EnemyConfig -> Enemy;
  (* core.item *)
  create_item : string -> ItemConfig -> Item;
  new_currency : string -> ItemConfig -> Item;
  (* core.position: pos.distance_to(other) > bound *)
  distance_exceeds : Position -> Position -> Z -> bool;
  (* random.choice picks the element at this index, taken modulo the length *)
  random_index : nat -> Ext -> nat * Ext;
  (* systems.dungeon_generator *)
  generate : Z -> Ext -> DungeonData * Ext;
  is_walkable : Grid -> Z -> Z -> bool;
  get_random_walkable_position : Grid -> Ext -> option Position * Ext;
  get_random_floor_position : Room -> Ext -> Position * Ext;
  (* systems.combat_system *)
  attack : Player -> Enemy -> Ext -> string * Player * Enemy * Ext;
  check_level_up : Player -> option string * Player;
  use_item : Player -> Item -> list Enemy -> Ext -> string * Player * list Enemy * Ext;
  equip_item : Player -> Item -> string * Player;
  enemy_take_turn :
    Enemy -> Player -> Grid -> Z -> Z -> Ext -> option string * Enemy * Player * Ext;
  (* systems.input_handler *)
  get_movement_delta : Action -> Z * Z;
  is_number_key : Action -> bool;
  get_item_index : Action -> Z;
  (* systems.fov_system *)
  compute_visible : Grid -> Position -> Z -> Z -> Mask;
  update_explored : Mask -> Mask -> Mask;
  (* systems.trap_system; the trap objects may be shared with game_state *)
  generate_traps : Grid -> Z -> Z -> Z -> Position -> Ext -> list Trap * Ext;
  check_trap_at : Z -> Z -> Player -> list Trap -> Ext -> option string * Player * list Trap * Ext;
  remove_triggered_traps : list Trap -> Ext -> list Trap * Ext;
  update_player_poison : Player -> Ext -> option string * Player * Ext;
  (* systems.save_system *)
  save_game : GameState -> Z -> Ext -> bool * Ext
}.

Context {C : Collaborators}.

(** ** Field updates *)

Definition set_position (q : Position) (p : Player) : Player :=
  mkPlayer q (atk p) (gold p) (inventory p) (max_inventory p)
           (temp_atk_duration p) (player_data p).

Definition set_atk (a : Z) (p : Player) : Player :=
  mkPlayer (position p) a (gold p) (inventory p) (max_inventory p)
           (temp_atk_duration p) (player_data p).

Definition set_gold (g : Z) (p : Player) : Player :=
  mkPlayer (position p) (atk p) g (inventory p) (max_inventory p)
           (temp_atk_duration p) (player_data p).

Definition set_inventory (inv : list Item) (p : Player) : Player :=
  mkPlayer (position p) (atk p) (gold p) inv (max_inventory p)
           (temp_atk_duration p) (player_data p).

Definition set_temp_atk_duration (d : option Z) (p : Player) : Player :=
  mkPlayer (position p) (atk p) (gold p) (inventory p) (max_inventory p)
           d (player_data p).

Definition set_item_position (q : Position) (it : Item) : Item :=
  mkItem (item_name it) (item_category it) (item_value it) q (item_data it).

Definition gs_set_player (p : Player) (g : GameState) : GameState :=
  mkGameState (current_level g) (game_map g) (explored g) (visible g) (rooms g)
    p (enemies g) (items g) (traps g) (messages g)
    (stairs_up g) (stairs_down g) (width g) (height g).

Definition gs_set_enemies (l : list Enemy) (g : GameState) : GameState :=
  mkGameState (current_level g) (game_map g) (explored g) (visible g) (rooms g)
    (player g) l (items g) (traps g) (messages g)
    (stairs_up g) (stairs_down g) (width g) (height g).

Definition gs_set_items (l : list Item) (g : GameState) : GameState :=
  mkGameState (current_level g) (game_map g) (explored g) (visible g) (rooms g)
    (player g) (enemies g) l (traps g) (messages g)
    (stairs_up g) (stairs_down g) (width g) (height g).

Definition gs_set_traps (l : list Trap) (g : GameState) : GameState :=
  mkGameState (current_level g) (game_map g) (explored g) (visible g) (rooms g)
    (player g) (enemies g) (items g) l (messages g)
    (stairs_up g) (stairs_down g) (width g) (height g).

Definition gs_set_messages (l : list string) (g : GameState) : GameState :=
  mkGameState (current_level g) (game_map g) (explored g) (visible g) (rooms g)
    (player g) (enemies g) (items g) (traps g) l
    (stairs_up g) (stairs_down g) (width g) (height g).

Definition gs_set_masks (vis expl : Mask) (g : GameState) : GameState :=
  mkGameState (current_level g) (game_map g) expl vis (rooms g)
    (player g) (enemies g) (items g) (traps g) (messages g)
    (stairs_up g) (stairs_down g) (width g) (height g).

(** The seven assignments that open [_generate_level]. *)
Definition gs_set_floor (d : DungeonData) (level : Z) (g : GameState) : GameState :=
  mkGameState level (dd_map d) (explored g) (visible g) (dd_rooms d)
    (player g) (enemies g) (items g) (traps g) (messages g)
    (dd_stairs_up d) (dd_stairs_down d) (dd_width d) (dd_height d).

Definition on_state (f : GameState -> GameState) (s : GameEngine) : GameEngine :=
  mkGameEngine (f (game_state s)) (running s) (showing_inventory s)
    (selected_item_index s) (current_save_slot s) (ext s) (trace s).

Definition set_running (b : bool) (s : GameEngine) : GameEngine :=
  mkGameEngine (game_state s) b (showing_inventory s)
    (selected_item_index s) (current_save_slot s) (ext s) (trace s).

Definition set_inventory_mode (showing : bool) (selected : Z) (s : GameEngine) : GameEngine :=
  mkGameEngine (game_state s) (running s) showing selected
    (current_save_slot s) (ext s) (trace s).

Definition set_ext (x : Ext) (s : GameEngine) : GameEngine :=
  mkGameEngine (game_state s) (running s) (showing_inventory s)
    (selected_item_index s) (current_save_slot s) x (trace s).

Definition emit (e : Event) (s : GameEngine) : GameEngine :=
  mkGameEngine (game_state s) (running s) (showing_inventory s)
    (selected_item_index s) (current_save_slot s) (ext s) (trace s ++ [e]).

Definition the_player (s : GameEngine) : Player := player (game_state s).
Definition set_player (p : Player) : GameEngine -> GameEngine := on_state (gs_set_player p).
Definition set_enemies (l : list Enemy) : GameEngine -> GameEngine := on_state (gs_set_enemies l).
Definition set_items (l : list Item) : GameEngine -> GameEngine := on_state (gs_set_items l).
Definition set_traps (l : list Trap) : GameEngine -> GameEngine := on_state (gs_set_traps l).

(** ** [Player] methods *)

(** Modelled from the spec: Player.move_to of core/entity.py, which is not
    in src/.  "place the player at the generator-provided start position",
    "only its position ... reset": the call sets the position and nothing
    else. *)
Definition move_to (x y : Z) (p : Player) : Player :=
  set_position (mkPosition x y) p.

(** Modelled from the spec: Player.add_to_inventory of core/entity.py, which
    is not in src/.  "attempt to add it to inventory", "Inventory size never
    exceeds the player's configured capacity": the item is appended when
    there is room, and the result says whether it was. *)
Definition add_to_inventory (it : Item) (p : Player) : bool * Player :=
  if Z.of_nat (length (inventory p)) <? max_inventory p
  then (true, set_inventory (inventory p ++ [it]) p)
  else (false, p).

(** Modelled from the spec: Player.get_inventory_item of core/entity.py,
    which is not in src/.  "requires a valid selection": the item in that
    slot, or nothing when the index is not a slot of the inventory. *)
Definition get_inventory_item (i : Z) (p : Player) : option Item :=
  if (0 <=? i) && (i <? Z.of_nat (length (inventory p)))
  then nth_error (inventory p) (Z.to_nat i)
  else None.

(** Modelled from the spec: Player.remove_from_inventory of core/entity.py,
    which is not in src/.  "remove the item from inventory": the slot is
    deleted and its item returned, or nothing happens when the index is not
    a slot of the inventory. *)
Definition remove_from_inventory (i : Z) (p : Player) : option Item * Player :=
  match get_inventory_item i p with
  | Some it => (Some it, set_inventory (del_slot (Z.to_nat i) (inventory p)) p)
  | None => (None, p)
  end.

(** ** Messages and field of view *)

Definition max_messages : Z :=
  match cfg_max_messages with Some n => n | None => 10 end.

Definition total_levels : Z :=
  match cfg_total_levels with Some n => n | None => 5 end.

Definition add_message (m : string) (s : GameEngine) : GameEngine :=
  let appended := messages (game_state s) ++ [m] in
  let kept :=
    if Z.of_nat (length appended) >? max_messages
    then Py.slice_from (- max_messages) appended
    else appended in
  emit (LogInfo m) (on_state (gs_set_messages kept) s).

(** [if message: self.add_message(message)]. *)
Definition add_message_if (m : option string) (s : GameEngine) : GameEngine :=
  match m with
  | Some text => if Py.truthy m then add_message text s else s
  | None => s
  end.

Definition _update_fov (s : GameEngine) : GameEngine :=
  let g := game_state s in
  let vis := compute_visible (game_map g) (position (player g)) (width g) (height g) in
  let expl := update_explored vis (explored g) in
  emit UpdateFov (on_state (gs_set_masks vis expl) s).

(** ** Enemies *)

(** The first living enemy standing on (x, y), with its slot. *)
Fixpoint first_enemy_at (x y : Z) (l : list Enemy) (i : nat) : option (nat * Enemy) :=
  match l with
  | [] => None
  | e :: rest =>
      if enemy_is_alive e
         && (pos_x (enemy_position e) =? x) && (pos_y (enemy_position e) =? y)
      then Some (i, e)
      else first_enemy_at x y rest (S i)
  end.

Definition _get_enemy_at (x y : Z) (s : GameEngine) : option (nat * Enemy) :=
  first_enemy_at x y (enemies (game_state s)) 0.

(** ** Status effect ticker *)

Definition expiry_message : string := "力量药水的效果消失了。".

Definition _update_temporary_effects (p : Player) : option string * Player :=
  let '(msgs, p') :=
    match temp_atk_duration p with
    | Some d =>
        if d >? 0 then
          let p1 := set_temp_atk_duration (Some (d - 1)) p in
          if d - 1 =? 0
          then ([expiry_message], set_atk (Z.max 3 (atk p1 - 5)) p1)
          else ([], p1)
        else ([], p)
    | None => ([], p)
    end in
  (match msgs with [] => None | _ => Some (Py.join " " msgs) end, p').

(** ** Enemy turn *)

(** The [for enemy in enemies] loop.  [todo] is the part of the list not yet
    visited and [i] the slot of its head; the result tells whether the loop
    was left by [return]. *)
Fixpoint enemy_loop (todo : list Enemy) (i : nat) (dead : list nat) (s : GameEngine)
  : bool * list nat * GameEngine :=
  match todo with
  | [] => (false, dead, s)
  | e :: rest =>
      if enemy_is_alive e then
        let g := game_state s in
        let '(msg, e', p', x') :=
          enemy_take_turn e (player g) (game_map g) (width g) (height g) (ext s) in
        let s1 := set_ext x' (set_player p' (set_enemies (set_slot i e' (enemies g)) s)) in
        let s2 := emit (EnemyActed i (player_is_alive p')) s1 in
        let s3 := add_message_if msg s2 in
        if negb (player_is_alive (the_player s3)) then (true, dead, s3)
        else enemy_loop rest (S i) dead s3
      else enemy_loop rest (S i) (dead ++ [i]) s
  end.

(** The buff tick that ends the enemy turn. *)
Definition buff_step (s : GameEngine) : GameEngine :=
  let '(msg, p') := _update_temporary_effects (the_player s) in
  add_message_if msg (set_player p' (emit BuffTick s)).

(** The poison tick and what follows it. *)
Definition poison_step (s : GameEngine) : GameEngine :=
  let '(msg, p', x') := update_player_poison (the_player s) (ext s) in
  let s1 := emit (PoisonTick msg (player_is_alive p')) (set_ext x' (set_player p' s)) in
  if Py.truthy msg then
    let s2 := add_message_if msg s1 in
    if negb (player_is_alive (the_player s2)) then s2
    else buff_step s2
  else buff_step s1.

Definition purge_step (dead : list nat) (s : GameEngine) : GameEngine :=
  emit (PurgeDead dead) (set_enemies (del_slots dead (enemies (game_state s))) s).

Definition _enemy_turn (s : GameEngine) : GameEngine :=
  let s0 := emit EnemyTurnPass s in
  let '(halted, dead, s1) := enemy_loop (enemies (game_state s0)) 0 [] s0 in
  if halted then s1
  else poison_step (purge_step dead s1).

(** ** Pickup rule *)

Definition picked_up_message (it : Item) : string :=
  ("拾取了" ++ item_name it)%string.

Definition inventory_full_message : string := "物品栏已满！".

(** The [for item in items] loop of [_check_pickup_item]; [to_remove]
    collects the slots of [items_to_remove]. *)
Fixpoint pickup_loop (player_pos : Position) (todo : list Item) (i : nat)
    (to_remove : list nat) (s : GameEngine) : list nat * GameEngine :=
  match todo with
  | [] => (to_remove, s)
  | it :: rest =>
      if (pos_x (item_position it) =? pos_x player_pos)
         && (pos_y (item_position it) =? pos_y player_pos)
      then
        let p := the_player s in
        if (item_category it =? "currency")%string then
          let s1 := set_player (set_gold (gold p + item_value it) p) s in
          let s2 := add_message (picked_up_message it) s1 in
          pickup_loop player_pos rest (S i) (to_remove ++ [i]) s2
        else if Z.of_nat (length (inventory p)) <? max_inventory p then
          let '(added, p') := add_to_inventory it p in
          let s1 := set_player p' s in
          if added
          then pickup_loop player_pos rest (S i) (to_remove ++ [i])
                 (add_message (picked_up_message it) s1)
          else pickup_loop player_pos rest (S i) to_remove s1
        else
          pickup_loop player_pos rest (S i) to_remove
            (add_message inventory_full_message s)
      else pickup_loop player_pos rest (S i) to_remove s
  end.

Definition _check_pickup_item (s : GameEngine) : GameEngine :=
  let s0 := emit PickupCheck s in
  let '(to_remove, s1) :=
    pickup_loop (position (the_player s0)) (items (game_state s0)) 0 [] s0 in
  set_items (del_slots to_remove (items (game_state s1))) s1.

(** ** Level generation *)

(** [random.choice(l)] for a list with first element [d]. *)
Definition random_choice {A : Type} (d : A) (l : list A) (x : Ext) : A * Ext :=
  let '(r, x') := random_index (length l) x in
  (nth (r mod length l)%nat l d, x').

(** The fifty placement attempts of [_place_item]. *)
Fixpoint place_attempts (n : nat) (it : Item) (s : GameEngine) : GameEngine :=
  match n with
  | O => s
  | S k =>
      let '(pos, x') := get_random_walkable_position (game_map (game_state s)) (ext s) in
      let s1 := set_ext x' s in
      match pos with
      | Some q => set_items (items (game_state s1) ++ [set_item_position q it]) s1
      | None => place_attempts k it s1
      end
  end.

Definition _place_item (it : Item) (s : GameEngine) : GameEngine :=
  place_attempts 50 it s.

Fixpoint repeat_times (n : nat) (body : GameEngine -> GameEngine) (s : GameEngine)
  : GameEngine :=
  match n with
  | O => s
  | S k => repeat_times k body (body s)
  end.

Definition spawn_random_item (group : string) (first : string) (others : list string)
    (s : GameEngine) : GameEngine :=
  let '(item_type, x') := random_choice first (first :: others) (ext s) in
  _place_item (create_item item_type (cfg_item group item_type)) (set_ext x' s).

Definition _spawn_items (level : Z) (s : GameEngine) : GameEngine :=
  let s1 :=
    repeat_times (Py.range (2 + level))
      (spawn_random_item "consumables" "health_potion" ["scroll_fireball"; "scroll_teleport"])
      s in
  let s2 :=
    if level >? 1
    then repeat_times (Py.range 1) (spawn_random_item "equipment" "sword" ["shield"; "axe"]) s1
    else s1 in
  repeat_times (Py.range (3 + level))
    (fun s => _place_item (new_currency "gold" (cfg_item "currency" "gold")) s)
    s2.

(** The fifty placement attempts for one enemy. *)
Fixpoint enemy_attempts (n : nat) (enemy_type : string) (cfg : EnemyConfig)
    (s : GameEngine) : GameEngine :=
  match n with
  | O => s
  | S k =>
      let '(pos, x') := get_random_walkable_position (game_map (game_state s)) (ext s) in
      let s1 := set_ext x' s in
      match pos with
      | Some q =>
          if distance_exceeds q (position (the_player s1)) 5
          then set_enemies
                 (enemies (game_state s1) ++ [new_enemy (pos_x q) (pos_y q) enemy_type cfg]) s1
          else enemy_attempts k enemy_type cfg s1
      | None => enemy_attempts k enemy_type cfg s1
      end
  end.

Fixpoint spawn_loop (n : nat) (available : list (string * EnemyConfig)) (s : GameEngine)
  : GameEngine :=
  match n with
  | O => s
  | S k =>
      match available with
      | [] => s
      | d :: _ =>
          let '((enemy_type, cfg), x') := random_choice d available (ext s) in
          spawn_loop k available (enemy_attempts 50 enemy_type cfg (set_ext x' s))
      end
  end.

Definition boss_warning : string := "警告：你感觉到强大的气息！".

Definition _spawn_enemies (level : Z) (s : GameEngine) : Outcome :=
  let enemy_count := 3 + level * 2 in
  let available :=
    filter (fun tc => level >=? match cfg_min_level (snd tc) with Some m => m | None => 1 end)
           cfg_enemies in
  if level =? total_levels then
    match Py.getitem (rooms (game_state s)) (-1) with
    | None => Raised IndexError s
    | Some boss_room =>
        let '(boss_pos, x') := get_random_floor_position boss_room (ext s) in
        let boss := new_enemy (pos_x boss_pos) (pos_y boss_pos) "dragon"
                              (cfg_get_enemy_config "dragon") in
        let s1 := set_ext x' s in
        Returned (add_message boss_warning
                   (set_enemies (enemies (game_state s1) ++ [boss]) s1))
    end
  else Returned (spawn_loop (Py.range enemy_count) available s).

Definition blank_mask (w h : Z) : Mask :=
  repeat (repeat false (Py.range w)) (Py.range h).

Definition _generate_level (level : Z) (s : GameEngine) : Outcome :=
  let s1 := emit (LogInfo ("生成第" ++ Py.str level ++ "层地牢")%string) s in
  let '(d, x') := generate level (ext s1) in
  let s2 := emit (Generate level) (set_ext x' s1) in
  let s3 := on_state (gs_set_floor d level) s2 in
  let w := width (game_state s3) in
  let h := height (game_state s3) in
  let s4 := on_state (gs_set_masks (blank_mask w h) (blank_mask w h)) s3 in
  let start := dd_player_start d in
  let s5 := emit (MoveTo (pos_x start) (pos_y start))
              (set_player (move_to (pos_x start) (pos_y start) (the_player s4)) s4) in
  let s6 := set_traps [] (set_items [] (set_enemies [] s5)) in
  match _spawn_enemies level s6 with
  | Raised e s' => Raised e s'
  | Returned s7 =>
      let s8 := _spawn_items level s7 in
      let g := game_state s8 in
      let '(tr, x'') := generate_traps (game_map g) (width g) (height g) level start (ext s8) in
      let s9 := emit (GenerateTraps level) (set_traps tr (set_ext x'' s8)) in
      let s10 := _update_fov s9 in
      Returned (add_message ("进入第" ++ Py.str level ++ "层地牢")%string s10)
  end.

(** ** Terminal states and stairs *)

Definition _victory (s : GameEngine) : GameEngine :=
  emit (LogInfo "玩家胜利")
    (emit WaitForKey (emit (RenderGameOver true) (set_running false s))).

Definition _game_over (s : GameEngine) : GameEngine :=
  emit (LogInfo "玩家死亡")
    (emit WaitForKey (emit (RenderGameOver false) (set_running false s))).

Definition _go_downstairs (s : GameEngine) : Outcome :=
  let s0 := emit GoDownstairs s in
  let current := current_level (game_state s0) in
  if current >=? total_levels then Returned (_victory s0)
  else _generate_level (current + 1) s0.

Definition top_floor_message : string := "这是地牢的顶层，无法继续上楼".

Definition _go_upstairs (s : GameEngine) : Outcome :=
  let s0 := emit GoUpstairs s in
  let current := current_level (game_state s0) in
  if current >? 1 then _generate_level (current - 1) s0
  else Returned (add_message top_floor_message s0).

(** ** Action resolver *)

Definition is_move (a : Action) : bool :=
  match a with
  | MOVE_UP | MOVE_DOWN | MOVE_LEFT | MOVE_RIGHT
  | MOVE_UP_LEFT | MOVE_UP_RIGHT | MOVE_DOWN_LEFT | MOVE_DOWN_RIGHT => true
  | _ => false
  end.

(** [game_map[y][x]]. *)
Definition tile_at (m : Grid) (x y : Z) : option ascii :=
  match Py.getitem m y with
  | Some row => Py.getitem row x
  | None => None
  end.

Definition xp_message (e : Enemy) : string :=
  ("获得" ++ Py.str (xp_reward e) ++ "点经验！")%string.

(** The bookkeeping after an attack that killed the enemy in slot [i]. *)
Definition reward_kill (i : nat) (e : Enemy) (s : GameEngine) : GameEngine :=
  let s1 := emit (GainXp (xp_reward e))
              (set_player (gain_xp (the_player s) (xp_reward e)) s) in
  let s2 := add_message (xp_message e) s1 in
  let '(level_up_msg, p') := check_level_up (the_player s2) in
  let s3 := add_message_if level_up_msg (emit CheckLevelUp (set_player p' s2)) in
  emit (RemoveEnemy i) (set_enemies (del_slot i (enemies (game_state s3))) s3).

(** The player attacks the enemy [target] found in slot [i]. *)
Definition attack_enemy (i : nat) (target : Enemy) (s : GameEngine) : GameEngine :=
  let '(msg, p', e', x') := attack (the_player s) target (ext s) in
  let s1 := emit (Attack i)
              (set_ext x' (set_player p'
                 (set_enemies (set_slot i e' (enemies (game_state s))) s))) in
  let s2 := add_message msg s1 in
  if negb (enemy_is_alive e') then reward_kill i e' s2 else s2.

(** The trap check after a step; the flag tells that the player died of it. *)
Definition trap_step (x y : Z) (s : GameEngine) : GameEngine * bool :=
  let '(trap_message, p', tr', x') :=
    check_trap_at x y (the_player s) (traps (game_state s)) (ext s) in
  let s1 := emit (TrapCheck x y) (set_ext x' (set_traps tr' (set_player p' s))) in
  if Py.truthy trap_message then
    let s2 := add_message_if trap_message s1 in
    let '(tr'', x'') := remove_triggered_traps (traps (game_state s2)) (ext s2) in
    let s3 := emit RemoveTriggeredTraps (set_ext x'' (set_traps tr'' s2)) in
    (s3, negb (player_is_alive (the_player s3)))
  else (s1, false).

(** The staircase test on the tile read from [game_map]. *)
Definition stairs_or (otherwise : GameEngine -> Outcome) (tile : option ascii)
    (s : GameEngine) : Outcome :=
  match tile with
  | None => Raised IndexError s
  | Some t =>
      if Ascii.eqb t ">" then _go_downstairs s
      else if Ascii.eqb t "<" then _go_upstairs s
      else otherwise s
  end.

Definition move_player (a : Action) (s : GameEngine) : Outcome :=
  let p := the_player s in
  let m := game_map (game_state s) in
  let '(dx, dy) := get_movement_delta a in
  let new_x := pos_x (position p) + dx in
  let new_y := pos_y (position p) + dy in
  match _get_enemy_at new_x new_y s with
  | Some (i, target) =>
      Returned (_update_fov (_enemy_turn (attack_enemy i target s)))
  | None =>
      if is_walkable m new_x new_y then
        let s1 := emit (MoveTo new_x new_y) (set_player (move_to new_x new_y p) s) in
        let '(s2, died) := trap_step new_x new_y s1 in
        if died then Returned (_game_over s2)
        else
          stairs_or (fun s => Returned (_update_fov (_enemy_turn s)))
            (tile_at m new_x new_y) (_check_pickup_item s2)
      else
        stairs_or Returned (tile_at m new_x new_y) s
  end.

Definition wait_message : string := "你等待了一会儿...".

Definition save_action (s : GameEngine) : GameEngine :=
  let slot := current_save_slot s in
  let '(saved, x') := save_game (game_state s) slot (ext s) in
  let s1 := emit (SaveGame slot) (set_ext x' s) in
  if saved then add_message ("游戏已保存到槽位" ++ Py.str slot)%string s1
  else add_message "保存失败！" s1.

Definition _handle_game_action (a : Action) (s : GameEngine) : Outcome :=
  if is_move a then move_player a s
  else
    match a with
    | WAIT => Returned (_update_fov (_enemy_turn (add_message wait_message s)))
    | INVENTORY => Returned (set_inventory_mode true (-1) s)
    | HELP => Returned (emit WaitForKey (emit RenderHelp s))
    | NUMBER_9 => Returned (save_action s)
    | QUIT | ESC => Returned (add_message "游戏结束" (set_running false s))
    | _ => Returned s
    end.

(** ** Inventory handler *)

Definition use_selected (s : GameEngine) : GameEngine :=
  let sel := selected_item_index s in
  if sel >=? 0 then
    match get_inventory_item sel (the_player s) with
    | Some it =>
        if (item_category it =? "consumable")%string then
          let '(msg, p', es', x') :=
            use_item (the_player s) it (enemies (game_state s)) (ext s) in
          let s1 := emit UseItem (set_ext x' (set_enemies es' (set_player p' s))) in
          let s2 := set_player (snd (remove_from_inventory sel (the_player s1))) s1 in
          add_message msg s2
        else if (item_category it =? "weapon")%string
                || (item_category it =? "armor")%string then
          let '(msg, p') := equip_item (the_player s) it in
          let s1 := emit EquipItem (set_player p' s) in
          let s2 := set_player (snd (remove_from_inventory sel (the_player s1))) s1 in
          add_message msg s2
        else add_message ("无法使用" ++ item_name it)%string s
    | None => add_message "没有选择物品" s
    end
  else s.

Definition drop_selected (s : GameEngine) : GameEngine :=
  let sel := selected_item_index s in
  if sel >=? 0 then
    match remove_from_inventory sel (the_player s) with
    | (Some it, p') =>
        let s1 := set_player p' s in
        let here := position (the_player s1) in
        let dropped := set_item_position (mkPosition (pos_x here) (pos_y here)) it in
        add_message ("丢弃了" ++ item_name it)%string
          (set_items (items (game_state s1) ++ [dropped]) s1)
    | (None, p') => set_player p' s
    end
  else s.

Definition _handle_inventory_action (a : Action) (s : GameEngine) : GameEngine :=
  if is_number_key a then
    emit RenderInventory (set_inventory_mode (showing_inventory s) (get_item_index a) s)
  else
    match a with
    | USE_ITEM => _update_fov (set_inventory_mode false (-1) (use_selected s))
    | DROP_ITEM => _update_fov (set_inventory_mode false (-1) (drop_selected s))
    | QUIT | ESC | INVENTORY => set_inventory_mode false (-1) s
    | _ => s
    end.

(** The dispatch of one decoded action in [_game_loop]. *)
Definition dispatch (a : Action) (s : GameEngine) : Outcome :=
  if showing_inventory s then Returned (_handle_inventory_action a s)
  else _handle_game_action a s.

(** ** Game loop *)

(** [_game_loop] on the decoded inputs still to come ([None]: a key that
    [parse_action] maps to no action).  The loop blocks in [wait_for_key]
    when the inputs are used up; the result is the engine at that point, or
    the outcome that ended the loop, with the inputs not consumed.  The
    drawing of the map by [renderer.render] has no event. *)
Fixpoint _game_loop (inputs : list (option Action)) (s : GameEngine)
  : Outcome * list (option Action) :=
  match inputs with
  | [] => (Returned s, [])
  | a :: rest =>
      if running s then
        let s1 := if showing_inventory s then emit RenderInventory s else s in
        let s2 := emit WaitForKey s1 in
        match (match a with
               | Some act => dispatch act s2
               | None => Returned s2
               end) with
        | Raised e s3 => (Raised e s3, rest)
        | Returned s3 =>
            if negb (player_is_alive (the_player s3))
            then (Returned (_game_over s3), rest)
            else _game_loop rest s3
        end
      else (Returned s, inputs)
  end.

Definition welcome_message : string := "欢迎来到地牢，英雄！".
Definition help_message : string := "使用 WASD 或方向键移动，? 查看帮助".

(** [start], with the player that [Player(1, 1, player_config)] builds. *)
Definition start (new_player : Player) (inputs : list (option Action)) (s : GameEngine)
  : Outcome * list (option Action) :=
  let s1 := set_player new_player (emit (LogInfo "游戏开始") s) in
  match _generate_level 1 s1 with
  | Raised e s2 => (Raised e s2, inputs)
  | Returned s2 =>
      let s3 := add_message help_message (add_message welcome_message s2) in
      _game_loop inputs (set_running true s3)
  end.

End Engine.

Arguments Collaborators Ty : clear implicits.

(** ** A small implementation of the collaborators

    Enemies bite for a fixed damage, a consumable burns every enemy, the
    floor generator returns one fixed room, and the poison tick is driven by
    two settings kept in the collaborators' private state. *)

Module Demo.

Record DEnemy := mkDEnemy { d_pos : Position; d_hp : Z; d_xp : Z; d_bite : Z }.

Record DExt := mkDExt { seed : nat; poison : Z; poison_reported : bool }.

#[global] Instance types : Opaque := {
  Enemy := DEnemy;
  EnemyConfig := Z;
  ItemConfig := Z;
  ItemData := unit;
  PlayerData := Z * Z;       (* hit points, experience *)
  Room := Position;
  Trap := Position;
  Ext := DExt
}.

Definition hp (p : Player) : Z := fst (player_data p).

Definition set_hp (h : Z) (p : Player) : Player :=
  mkPlayer (position p) (atk p) (gold p) (inventory p) (max_inventory p)
           (temp_atk_duration p) (h, snd (player_data p)).

Definition add_xp (p : Player) (n : Z) : Player :=
  mkPlayer (position p) (atk p) (gold p) (inventory p) (max_inventory p)
           (temp_atk_duration p) (fst (player_data p), snd (player_data p) + n).

Definition hurt (n : Z) (e : DEnemy) : DEnemy :=
  mkDEnemy (d_pos e) (d_hp e - n) (d_xp e) (d_bite e).

Definition burn (e : DEnemy) : DEnemy :=
  mkDEnemy (d_pos e) 0 (d_xp e) (d_bite e).

Definition floor_tile (m : Grid) (x y : Z) : bool :=
  if (0 <=? x) && (0 <=? y) then
    match nth_error m (Z.to_nat y) with
    | Some row =>
        match nth_error row (Z.to_nat x) with
        | Some t => Ascii.eqb t "."
        | None => false
        end
    | None => false
    end
  else false.

Definition room3 : Grid :=
  [ ["."; "."; "."]%char; ["."; "#"; ">"]%char; ["."; "."; "."]%char ].

Definition delta (a : Action) : Z * Z :=
  match a with
  | MOVE_UP => (0, -1) | MOVE_DOWN => (0, 1)
  | MOVE_LEFT => (-1, 0) | MOVE_RIGHT => (1, 0)
  | MOVE_UP_LEFT => (-1, -1) | MOVE_UP_RIGHT => (1, -1)
  | MOVE_DOWN_LEFT => (-1, 1) | MOVE_DOWN_RIGHT => (1, 1)
  | _ => (0, 0)
  end.

Definition tick_poison (p : Player) (x : DExt) : option string * Player * DExt :=
  if poison x >? 0 then
    (if poison_reported x then Some "poison" else None, set_hp (hp p - poison x) p, x)
  else (None, p, x).

#[global] Instance collaborators : Collaborators types := {
  cfg_max_messages := None;
  cfg_total_levels := None;
  cfg_enemies := [("goblin", 1)];
  cfg_min_level := fun c => Some c;
  cfg_get_enemy_config := fun _ => 3;
  cfg_item := fun _ _ => 7;
  player_is_alive := fun p => 0 <? hp p;
  gain_xp := add_xp;
  enemy_is_alive := fun e => 0 <? d_hp e;
  enemy_position := d_pos;
  xp_reward := d_xp;
  new_enemy := fun x y _ c => mkDEnemy (mkPosition x y) 10 5 c;
  create_item := fun t c => mkItem t "consumable" c (mkPosition 0 0) tt;
  new_currency := fun t c => mkItem t "currency" c (mkPosition 0 0) tt;
  distance_exceeds := fun q p b =>
    (pos_x q - pos_x p) * (pos_x q - pos_x p)
    + (pos_y q - pos_y p) * (pos_y q - pos_y p) >? b * b;
  random_index := fun _ x => (seed x, mkDExt (S (seed x)) (poison x) (poison_reported x));
  generate := fun _ x =>
    (mkDungeonData room3 [mkPosition 0 0] 3 3 None (Some (mkPosition 2 1)) (mkPosition 0 0), x);
  is_walkable := floor_tile;
  get_random_walkable_position := fun _ x => (Some (mkPosition 2 2), x);
  get_random_floor_position := fun r x => (r, x);
  attack := fun p e x => ("hit", p, hurt (atk p) e, x);
  check_level_up := fun p => (None, p);
  use_item := fun p _ es x => ("fire", p, map burn es, x);
  equip_item := fun p it => ("equipped", set_atk (atk p + item_value it) p);
  enemy_take_turn := fun e p _ _ _ x => (Some "bite", e, set_hp (hp p - d_bite e) p, x);
  get_movement_delta := delta;
  is_number_key := fun a => match a with NUMBER_9 | OTHER_ACTION _ => true | _ => false end;
  get_item_index := fun a => match a with OTHER_ACTION n => Z.of_nat n | _ => 8 end;
  compute_visible := fun _ _ w h => blank_mask w h;
  update_explored := fun _ e => e;
  generate_traps := fun _ _ _ _ _ x => ([], x);
  check_trap_at := fun _ _ p tr x => (None, p, tr, x);
  remove_triggered_traps := fun tr x => (tr, x);
  update_player_poison := tick_poison;
  save_game := fun _ _ x => (true, x)
}.

Definition hero (x y hit_points : Z) (bag : list Item) (capacity : Z) (buff : option Z)
  : Player :=
  mkPlayer (mkPosition x y) 8 0 bag capacity buff (hit_points, 0).

Definition floor (p : Player) (es : list DEnemy) (its : list Item) : GameState :=
  mkGameState 1 room3 (blank_mask 3 3) (blank_mask 3 3) [mkPosition 0 0]
    p es its [] [] None (Some (mkPosition 2 1)) 3 3.

Definition engine (g : GameState) (inventory_open : bool) (selected : Z) (x : DExt)
  : GameEngine :=
  mkGameEngine g true inventory_open selected 1 x [].

Definition calm : DExt := mkDExt 0 0 true.

Definition goblin (x y hit_points bite : Z) : DEnemy :=
  mkDEnemy (mkPosition x y) hit_points 5 bite.

Definition scroll : Item := mkItem "scroll_fireball" "consumable" 0 (mkPosition 0 0) tt.
Definition sword (x y : Z) : Item := mkItem "sword" "weapon" 3 (mkPosition x y) tt.
Definition coin (x y v : Z) : Item := mkItem "gold" "currency" v (mkPosition x y) tt.

(** The hero next to a weak goblin, a strong one further away. *)
Definition duel : GameEngine :=
  engine (floor (hero 0 0 20 [] 2 None) [goblin 1 0 5 3; goblin 0 1 50 4] []) false (-1) calm.

(** A hero with three hit points and two goblins; the first one bites for five. *)
Definition ambush : GameEngine :=
  engine (floor (hero 0 0 3 [] 2 None) [goblin 1 0 9 5; goblin 0 1 9 1] []) false (-1) calm.

(** The inventory is open on a fire scroll; one goblin is on the floor. *)
Definition burning : GameEngine :=
  engine (floor (hero 0 0 20 [scroll] 2 None) [goblin 2 2 5 3] []) true 0 calm.

(** The hero left of the wall tile (1, 1). *)
Definition cornered : GameEngine :=
  engine (floor (hero 0 1 20 [] 2 None) [goblin 2 2 5 3] []) false (-1) calm.

(** A full inventory of capacity two on a tile with a sword and a coin. *)
Definition loaded : GameEngine :=
  engine (floor (hero 1 0 20 [sword 9 9; sword 9 9] 2 None) []
                [sword 1 0; coin 1 0 10; coin 2 2 4]) false (-1) calm.

(** The final floor (five levels by default). *)
Definition last_floor : GameEngine :=
  mkGameEngine
    (mkGameState 5 room3 (blank_mask 3 3) (blank_mask 3 3) [mkPosition 0 0]
       (hero 2 1 20 [] 2 None) [] [] [] [] None (Some (mkPosition 2 1)) 3 3)
    true false (-1) 1 calm [].

(** A lethal poison whose tick returns no message, and one that reports. *)
Definition silent_poison : GameEngine :=
  engine (floor (hero 0 0 20 [] 2 (Some 3)) [] []) false (-1) (mkDExt 0 100 false).

Definition loud_poison : GameEngine :=
  engine (floor (hero 0 0 20 [] 2 (Some 3)) [] []) false (-1) (mkDExt 0 100 true).

(** One tick left on the attack buff; and no buff at all. *)
Definition buffed : GameEngine :=
  engine (floor (hero 0 0 20 [] 2 (Some 1)) [] []) false (-1) calm.

Definition plain : GameEngine :=
  engine (floor (hero 0 0 20 [] 2 None) [] []) false (-1) calm.

(** The hero on the right edge of the three-by-three grid. *)
Definition edge : GameEngine :=
  engine (floor (hero 2 0 20 [] 2 None) [] []) false (-1) calm.

(** The implementation above with another message cap, walkability test,
    trap check or floor generator. *)
Definition variant (cap : option Z) (walk : Grid -> Z -> Z -> bool)
    (trap : Z -> Z -> Player -> list Position -> DExt
            -> option string * Player * list Position * DExt)
    (gen : Z -> DExt -> DungeonData * DExt) : Collaborators types := {|
  cfg_max_messages := cap;
  cfg_total_levels := @cfg_total_levels types collaborators;
  cfg_enemies := @cfg_enemies types collaborators;
  cfg_min_level := @cfg_min_level types collaborators;
  cfg_get_enemy_config := @cfg_get_enemy_config types collaborators;
  cfg_item := @cfg_item types collaborators;
  player_is_alive := @player_is_alive types collaborators;
  gain_xp := @gain_xp types collaborators;
  enemy_is_alive := @enemy_is_alive types collaborators;
  enemy_position := @enemy_position types collaborators;
  xp_reward := @xp_reward types collaborators;
  new_enemy := @new_enemy types collaborators;
  create_item := @create_item types collaborators;
  new_currency := @new_currency types collaborators;
  distance_exceeds := @distance_exceeds types collaborators;
  random_index := @random_index types collaborators;
  generate := gen;
  is_walkable := walk;
  get_random_walkable_position := @get_random_walkable_position types collaborators;
  get_random_floor_position := @get_random_floor_position types collaborators;
  attack := @attack types collaborators;
  check_level_up := @check_level_up types collaborators;
  use_item := @use_item types collaborators;
  equip_item := @equip_item types collaborators;
  enemy_take_turn := @enemy_take_turn types collaborators;
  get_movement_delta := @get_movement_delta types collaborators;
  is_number_key := @is_number_key types collaborators;
  get_item_index := @get_item_index types collaborators;
  compute_visible := @compute_visible types collaborators;
  update_explored := @update_explored types collaborators;
  generate_traps := @generate_traps types collaborators;
  check_trap_at := trap;
  remove_triggered_traps := @remove_triggered_traps types collaborators;
  update_player_poison := @update_player_poison types collaborators;
  save_game := @save_game types collaborators
|}.

(** A message cap of zero. *)
Definition uncapped : Collaborators types :=
  variant (Some 0) floor_tile (@check_trap_at types collaborators)
    (@generate types collaborators).

(** Staircases count as walkable. *)
Definition open_stairs : Collaborators types :=
  variant None
    (fun m x y => floor_tile m x y
                  || match tile_at m x y with
                     | Some t => (0 <=? x) && (0 <=? y) && Ascii.eqb t ">"
                     | None => false
                     end)
    (@check_trap_at types collaborators) (@generate types collaborators).

(** Every tile holds a lethal spike trap. *)
Definition spiked : Collaborators types :=
  variant None floor_tile (fun _ _ p tr x => (Some "spikes", set_hp 0 p, tr, x))
    (@generate types collaborators).


(** The generator returns a floor without rooms. *)
Definition roomless : Collaborators types :=
  variant None floor_tile (@check_trap_at types collaborators)
    (fun _ x =>
       (mkDungeonData room3 [] 3 3 None (Some (mkPosition 2 1)) (mkPosition 0 0), x)).

End Demo.

(** ** Vocabulary of the statements *)

Section Vocabulary.

Context {Ty : Opaque} {C : Collaborators Ty}.

(** The tile a directional action aims at. *)
Definition move_target (a : Action) (s : GameEngine) : Z * Z :=
  let p := position (the_player s) in
  (pos_x p + fst (get_movement_delta a), pos_y p + snd (get_movement_delta a)).

Definition stands_on (x y : Z) (e : Enemy) : Prop :=
  pos_x (enemy_position e) = x /\ pos_y (enemy_position e) = y.

(** No living enemy stands on (x, y). *)
Definition enemy_free (x y : Z) (s : GameEngine) : Prop :=
  Forall (fun e => ~ (enemy_is_alive e = true /\ stands_on x y e))
         (enemies (game_state s)).

Definition is_log (e : Event) : bool :=
  match e with LogInfo _ => true | _ => false end.

(** The [for] loop of [_enemy_turn] was left by [return]. *)
Definition pass_halted (s : GameEngine) : bool :=
  let s0 := emit EnemyTurnPass s in
  fst (fst (enemy_loop (enemies (game_state s0)) 0 [] s0)).

(** The collaborators that receive the player do not relocate it. *)
Class KeepsPosition : Prop := {
  attack_keeps : forall p e x,
    position (snd (fst (fst (attack p e x)))) = position p;
  gain_xp_keeps : forall p n, position (gain_xp p n) = position p;
  check_level_up_keeps : forall p, position (snd (check_level_up p)) = position p;
  enemy_take_turn_keeps : forall e p m w h x,
    position (snd (fst (enemy_take_turn e p m w h x))) = position p;
  update_player_poison_keeps : forall p x,
    position (snd (fst (update_player_poison p x))) = position p
}.

(** Everything of the floor except the message log. *)
Definition same_floor (g1 g2 : GameState) : Prop :=
  gs_set_messages [] g1 = gs_set_messages [] g2.

(** What [if message: self.add_message(message)] emits. *)
Definition log_of (m : option string) : list Event :=
  match m with
  | Some text => if Py.truthy m then [LogInfo text] else []
  | None => []
  end.

(** An enemy's action left the player dead. *)
Definition is_death (e : Event) : bool :=
  match e with EnemyActed _ false => true | _ => false end.

Definition is_poison_tick (e : Event) : bool :=
  match e with PoisonTick _ _ => true | _ => false end.

(** What the enemy loop emits while the player lives. *)
Definition calm_event (e : Event) : bool :=
  match e with LogInfo _ | EnemyActed _ true => true | _ => false end.

(** [e'] is the enemy [e] after a turn of its own. *)
Definition acted (e e' : Enemy) : Prop :=
  exists p m w h x, e' = snd (fst (fst (enemy_take_turn e p m w h x))).

(** The floor without the enemies, the items and the message log: what
    spawning leaves alone. *)
Definition stable_part (s : GameEngine) : GameState :=
  gs_set_messages [] (gs_set_items [] (gs_set_enemies [] (game_state s))).

(** What level generation can read: the floor without the message log, and
    the private state of the collaborators. *)
Definition floor_view (s : GameEngine) : GameState * Ext :=
  (gs_set_messages [] (game_state s), ext s).

Definition same_outcome (o1 o2 : Outcome) : Prop :=
  match o1, o2 with
  | Returned a, Returned b => floor_view a = floor_view b
  | Raised e1 a, Raised e2 b => e1 = e2 /\ floor_view a = floor_view b
  | _, _ => False
  end.

(** The item lies on the tile [pos]. *)
Definition here (pos : Position) (it : Item) : bool :=
  (pos_x (item_position it) =? pos_x pos) && (pos_y (item_position it) =? pos_y pos).

Definition is_currency (it : Item) : bool := (item_category it =? "currency")%string.

Definition coins_here (pos : Position) (l : list Item) : list Item :=
  filter (fun it => here pos it && is_currency it) l.

Definition goods_here (pos : Position) (l : list Item) : list Item :=
  filter (fun it => here pos it && negb (is_currency it)) l.

Definition total_value (l : list Item) : Z :=
  fold_right (fun it acc => item_value it + acc) 0 l.

(** Free capacity of the inventory. *)
Definition free_slots (p : Player) : nat :=
  Z.to_nat (max_inventory p - Z.of_nat (length (inventory p))).

(** The items that stay on the floor when the player stands on [pos] with
    [free] free slots. *)
Fixpoint left_on_floor (pos : Position) (free : nat) (l : list Item) : list Item :=
  match l with
  | [] => []
  | it :: rest =>
      if here pos it then
        if is_currency it then left_on_floor pos free rest
        else match free with
             | O => it :: left_on_floor pos O rest
             | S f => left_on_floor pos f rest
             end
      else it :: left_on_floor pos free rest
  end.

(** The floor geometry. *)
Definition terrain (g : GameState) :=
  (current_level g, game_map g, rooms g, stairs_up g, stairs_down g, width g, height g).

(** The control fields of the engine. *)
Definition controls (s : GameEngine) :=
  (running s, showing_inventory s, selected_item_index s, current_save_slot s).

(** [n] invocations of the status effect ticker. *)
Fixpoint tick_times (n : nat) (p : Player) : Player :=
  match n with
  | O => p
  | S k => tick_times k (snd (_update_temporary_effects p))
  end.

(** The engine after the [move_to] of a directional action. *)
Definition stepped (a : Action) (s : GameEngine) : GameEngine :=
  emit (MoveTo (fst (move_target a s)) (snd (move_target a s)))
    (set_player (move_to (fst (move_target a s)) (snd (move_target a s)) (the_player s)) s).

(** The trap check after the step reports an effect that leaves the player dead. *)
Definition trap_kills (a : Action) (s : GameEngine) : bool :=
  snd (trap_step (fst (move_target a s)) (snd (move_target a s)) (stepped a s)).

(** What the trap check may emit after its call. *)
Definition trap_event (e : Event) : bool :=
  match e with LogInfo _ | RemoveTriggeredTraps => true | _ => false end.

(** What a level generation may emit. *)
Definition generation_event (e : Event) : bool :=
  match e with
  | LogInfo _ | Generate _ | MoveTo _ _ | GenerateTraps _ | UpdateFov => true
  | _ => false
  end.

(** What a descent may emit: a generation, or the victory screen. *)
Definition descent_event (e : Event) : bool :=
  match e with
  | GoDownstairs | RenderGameOver true | WaitForKey => true
  | _ => generation_event e
  end.

(** What the actions that take no turn may emit. *)
Definition idle_event (e : Event) : bool :=
  match e with
  | LogInfo _ | RenderHelp | WaitForKey | SaveGame _ => true
  | _ => false
  end.

(** What the inventory handler may emit. *)
Definition inventory_event (e : Event) : bool :=
  match e with
  | LogInfo _ | RenderInventory | UseItem | EquipItem | UpdateFov => true
  | _ => false
  end.

Definition is_game_over (e : Event) : bool :=
  match e with RenderGameOver false => true | _ => false end.

(** What neither an enemy turn nor a pickup touches. *)
Definition fixtures (s : GameEngine) :=
  (terrain (game_state s), traps (game_state s), explored (game_state s),
   visible (game_state s), controls s).

(** What an enemy turn may emit between its entry mark and the visibility
    update. *)
Definition pass_event (e : Event) : bool :=
  match e with
  | LogInfo _ | EnemyActed _ _ | PurgeDead _ | PoisonTick _ _ | BuffTick => true
  | _ => false
  end.

End Vocabulary.

(** ** Properties *)

Section Properties.

Context {Ty : Opaque} {C : Collaborators Ty}.

(** *** Setters and the trace *)

Lemma trace_add_message (m : string) (s : GameEngine) :
  trace (add_message m s) = trace s ++ [LogInfo m].
Proof. reflexivity. Qed.

Lemma trace_add_message_if (m : option string) (s : GameEngine) :
  trace (add_message_if m s) = trace s ++ log_of m.
Proof.
  unfold add_message_if, log_of.
  destruct m as [text|]; [destruct (Py.truthy (Some text))|];
    cbn; now rewrite ?app_nil_r.
Qed.

Lemma player_add_message (m : string) (s : GameEngine) :
  the_player (add_message m s) = the_player s.
Proof. reflexivity. Qed.

Lemma player_emit (e : Event) (s : GameEngine) : the_player (emit e s) = the_player s.
Proof. reflexivity. Qed.

Lemma player_set_ext (x : Ext) (s : GameEngine) : the_player (set_ext x s) = the_player s.
Proof. reflexivity. Qed.

Lemma player_set_enemies (l : list Enemy) (s : GameEngine) :
  the_player (set_enemies l s) = the_player s.
Proof. reflexivity. Qed.

Lemma player_set_items (l : list Item) (s : GameEngine) :
  the_player (set_items l s) = the_player s.
Proof. reflexivity. Qed.

Lemma player_set_traps (l : list Trap) (s : GameEngine) :
  the_player (set_traps l s) = the_player s.
Proof. reflexivity. Qed.

Lemma player_set_player (p : Player) (s : GameEngine) : the_player (set_player p s) = p.
Proof. reflexivity. Qed.

Lemma player_add_message_if (m : option string) (s : GameEngine) :
  the_player (add_message_if m s) = the_player s.
Proof.
  unfold add_message_if.
  destruct m as [text|]; [destruct (Py.truthy (Some text))|]; reflexivity.
Qed.

Lemma enemies_add_message_if (m : option string) (s : GameEngine) :
  enemies (game_state (add_message_if m s)) = enemies (game_state s).
Proof.
  unfold add_message_if.
  destruct m as [text|]; [destruct (Py.truthy (Some text))|]; reflexivity.
Qed.

Create Rewrite HintDb engine.

#[local] Hint Rewrite player_add_message player_add_message_if player_emit player_set_ext
  player_set_enemies player_set_items player_set_traps player_set_player : engine.

Lemma log_of_is_log (m : option string) : forallb is_log (log_of m) = true.
Proof.
  unfold log_of. destruct m as [text|]; [destruct (Py.truthy (Some text))|]; reflexivity.
Qed.

(** *** Target lookup *)

Lemma first_enemy_at_none (x y : Z) (l : list Enemy) (i : nat) :
  Forall (fun e => ~ (enemy_is_alive e = true /\ stands_on x y e)) l ->
  first_enemy_at x y l i = None.
Proof.
  intros H. revert i. induction H as [|e l He _ IH]; intros i; cbn.
  - reflexivity.
  - destruct (enemy_is_alive e) eqn:Ha; cbn; [|apply IH].
    destruct (Z.eqb_spec (pos_x (enemy_position e)) x) as [Hx|]; cbn; [|apply IH].
    destruct (Z.eqb_spec (pos_y (enemy_position e)) y) as [Hy|]; cbn; [|apply IH].
    exfalso. apply He. now repeat split.
Qed.

Lemma first_enemy_at_some (x y : Z) (l : list Enemy) (i k : nat) (e : Enemy) :
  first_enemy_at x y l i = Some (k, e) ->
  (i <= k)%nat /\ nth_error l (k - i) = Some e
  /\ enemy_is_alive e = true /\ stands_on x y e.
Proof.
  revert i. induction l as [|h l IH]; intros i; cbn; [discriminate|].
  destruct (enemy_is_alive h) eqn:Ha; cbn.
  - destruct (Z.eqb_spec (pos_x (enemy_position h)) x) as [Hx|]; cbn.
    + destruct (Z.eqb_spec (pos_y (enemy_position h)) y) as [Hy|]; cbn.
      * intros [= <- <-]. rewrite Nat.sub_diag. now repeat split.
      * intros H. apply IH in H as (Hle & Hn & Hp).
        replace (k - i)%nat with (S (k - S i)) by lia. split; [lia|]. now split.
    + intros H. apply IH in H as (Hle & Hn & Hp).
      replace (k - i)%nat with (S (k - S i)) by lia. split; [lia|]. now split.
  - intros H. apply IH in H as (Hle & Hn & Hp).
    replace (k - i)%nat with (S (k - S i)) by lia. split; [lia|]. now split.
Qed.

Lemma move_player_target (a : Action) (s : GameEngine) :
  move_player a s =
  let '(new_x, new_y) := move_target a s in
  let m := game_map (game_state s) in
  match _get_enemy_at new_x new_y s with
  | Some (i, target) =>
      Returned (_update_fov (_enemy_turn (attack_enemy i target s)))
  | None =>
      if is_walkable m new_x new_y then
        let s1 := emit (MoveTo new_x new_y)
                    (set_player (move_to new_x new_y (the_player s)) s) in
        let '(s2, died) := trap_step new_x new_y s1 in
        if died then Returned (_game_over s2)
        else
          stairs_or (fun s => Returned (_update_fov (_enemy_turn s)))
            (tile_at m new_x new_y) (_check_pickup_item s2)
      else
        stairs_or Returned (tile_at m new_x new_y) s
  end.
Proof.
  unfold move_player, move_target. now destruct (get_movement_delta a).
Qed.

(** *** Blocked moves *)

(** C4: a directional move whose target tile is not walkable, is not a
    staircase symbol and holds no living enemy returns with the engine
    exactly as it was: same world state, same message log, nothing
    emitted, no enemy turn. *)
Theorem blocked_move_changes_nothing (a : Action) (s : GameEngine) (t : ascii) :
  is_move a = true ->
  enemy_free (fst (move_target a s)) (snd (move_target a s)) s ->
  is_walkable (game_map (game_state s))
              (fst (move_target a s)) (snd (move_target a s)) = false ->
  tile_at (game_map (game_state s))
          (fst (move_target a s)) (snd (move_target a s)) = Some t ->
  t <> ">"%char -> t <> "<"%char ->
  _handle_game_action a s = Returned s.
Proof.
  intros Hmove Hfree Hwall Htile Hdown Hup.
  unfold _handle_game_action. rewrite Hmove, move_player_target.
  destruct (move_target a s) as [nx ny]; cbn [fst snd] in *.
  unfold _get_enemy_at. rewrite (first_enemy_at_none _ _ _ _ Hfree).
  cbv zeta. rewrite Hwall, Htile. unfold stairs_or.
  destruct (Ascii.eqb_spec t ">") as [E|_]; [contradiction|].
  destruct (Ascii.eqb_spec t "<") as [E|_]; [contradiction|].
  reflexivity.
Qed.

(** C10: the staircase test of a blocked move reads [game_map[new_y][new_x]]
    with no bounds check; when the target has no tile the handler does not
    return, it leaves through IndexError. *)
Theorem blocked_move_off_grid_raises (a : Action) (s : GameEngine) :
  is_move a = true ->
  enemy_free (fst (move_target a s)) (snd (move_target a s)) s ->
  is_walkable (game_map (game_state s))
              (fst (move_target a s)) (snd (move_target a s)) = false ->
  tile_at (game_map (game_state s))
          (fst (move_target a s)) (snd (move_target a s)) = None ->
  _handle_game_action a s = Raised IndexError s.
Proof.
  intros Hmove Hfree Hwall Htile.
  unfold _handle_game_action. rewrite Hmove, move_player_target.
  destruct (move_target a s) as [nx ny]; cbn [fst snd] in *.
  unfold _get_enemy_at. rewrite (first_enemy_at_none _ _ _ _ Hfree).
  cbv zeta. now rewrite Hwall, Htile.
Qed.

(** *** Lists of events *)

Lemma forallb_weaken (f g : Event -> bool) (l : list Event) :
  (forall e, f e = true -> g e = true) -> forallb f l = true -> forallb g l = true.
Proof.
  intros Hfg. rewrite !forallb_forall. auto.
Qed.

(** An event with property [q] that occurs once splits a list in one way. *)
Lemma split_unique (q : Event -> bool) (front : list Event) (x : Event)
    (back pre : list Event) (y : Event) (post : list Event) :
  forallb (fun e => negb (q e)) front = true ->
  forallb (fun e => negb (q e)) back = true ->
  q y = true ->
  front ++ x :: back = pre ++ y :: post ->
  pre = front /\ y = x /\ post = back.
Proof.
  intros Hfront Hback Hy. revert pre.
  induction front as [|f front IH]; intros pre Heq.
  - destruct pre as [|p pre]; cbn in Heq.
    + now inversion Heq.
    + inversion Heq; subst. rewrite forallb_app in Hback.
      apply andb_prop in Hback as [_ Hb]. cbn in Hb. now rewrite Hy in Hb.
  - cbn in Hfront. apply andb_prop in Hfront as [Hf Hfront].
    destruct pre as [|p pre]; cbn in Heq.
    + inversion Heq; subst. now rewrite Hy in Hf.
    + inversion Heq; subst. destruct (IH Hfront pre H1) as (-> & -> & ->).
      now repeat split.
Qed.

Lemma no_split (q : Event -> bool) (d pre : list Event) (y : Event) (post : list Event) :
  forallb (fun e => negb (q e)) d = true -> q y = true -> d <> pre ++ y :: post.
Proof.
  intros Hd Hy ->. rewrite forallb_app in Hd.
  apply andb_prop in Hd as [_ Hd]. cbn in Hd. now rewrite Hy in Hd.
Qed.

(** *** Status effect ticker *)

Lemma buff_step_trace (s : GameEngine) :
  trace (buff_step s)
  = trace s ++ BuffTick :: log_of (fst (_update_temporary_effects (the_player s))).
Proof.
  unfold buff_step.
  destruct (_update_temporary_effects (the_player s)) as [msg p'].
  rewrite trace_add_message_if. cbn. now rewrite <- app_assoc.
Qed.

Lemma buff_step_enemies (s : GameEngine) :
  enemies (game_state (buff_step s)) = enemies (game_state s).
Proof.
  unfold buff_step.
  destruct (_update_temporary_effects (the_player s)) as [msg p'].
  now rewrite enemies_add_message_if.
Qed.

Lemma ticker_keeps_position (p : Player) :
  position (snd (_update_temporary_effects p)) = position p.
Proof.
  unfold _update_temporary_effects.
  destruct (temp_atk_duration p) as [d|]; [|reflexivity].
  destruct (d >? 0); [|reflexivity].
  now destruct (d - 1 =? 0).
Qed.

(** C8: with one tick left on the +5 attack buff, one invocation of the
    ticker leaves the duration at 0 and the attack at max(3, attack - 5),
    and the enemy turn logs the expiry message once; with the counter at
    zero or absent the invocation changes nothing and logs nothing. *)
Theorem buff_expires_on_last_tick (s : GameEngine) :
  (temp_atk_duration (the_player s) = Some 1 ->
     fst (_update_temporary_effects (the_player s)) = Some expiry_message
     /\ the_player (buff_step s)
        = set_atk (Z.max 3 (atk (the_player s) - 5))
            (set_temp_atk_duration (Some 0) (the_player s))
     /\ temp_atk_duration (the_player (buff_step s)) = Some 0
     /\ atk (the_player (buff_step s)) = Z.max 3 (atk (the_player s) - 5)
     /\ trace (buff_step s) = trace s ++ [BuffTick; LogInfo expiry_message]
     /\ messages (game_state (buff_step s))
        = messages (game_state (add_message expiry_message s)))
  /\ (temp_atk_duration (the_player s) = Some 0
      \/ temp_atk_duration (the_player s) = None ->
     _update_temporary_effects (the_player s) = (None, the_player s)
     /\ game_state (buff_step s) = game_state s
     /\ trace (buff_step s) = trace s ++ [BuffTick]).
Proof.
  split.
  - intros H. unfold buff_step, _update_temporary_effects. rewrite H. cbn.
    repeat split. now rewrite <- app_assoc.
  - intros H. unfold buff_step, _update_temporary_effects.
    destruct s as [g r sh sel slot x tr]. destruct g; cbn in *.
    destruct H as [-> | ->]; repeat split.
Qed.

(** *** The trace of an enemy turn *)

Lemma log_of_falsy (m : option string) : Py.truthy m = false -> log_of m = [].
Proof.
  unfold log_of. destruct m as [text|]; [|reflexivity]. now intros ->.
Qed.

Lemma log_of_calm (m : option string) : forallb calm_event (log_of m) = true.
Proof.
  apply forallb_weaken with (f := is_log); [|apply log_of_is_log].
  now intros [].
Qed.

Lemma calm_not (q : Event -> bool) (d : list Event) :
  (forall e, calm_event e = true -> q e = false) ->
  forallb calm_event d = true -> forallb (fun e => negb (q e)) d = true.
Proof.
  intros Hq. apply forallb_weaken. intros e He. now rewrite (Hq e He).
Qed.

Lemma calm_not_death (e : Event) : calm_event e = true -> is_death e = false.
Proof.
  destruct e; try reflexivity.
  match goal with b : bool |- _ => now destruct b end.
Qed.

Lemma calm_not_poison (e : Event) : calm_event e = true -> is_poison_tick e = false.
Proof. now destruct e. Qed.

Lemma poison_step_trace (s : GameEngine) :
  let r := update_player_poison (the_player s) (ext s) in
  let msg := fst (fst r) in
  let alive := player_is_alive (snd (fst r)) in
  trace (poison_step s)
  = trace s ++ PoisonTick msg alive :: log_of msg
      ++ (if Py.truthy msg && negb alive then []
          else BuffTick :: log_of (fst (_update_temporary_effects (snd (fst r))))).
Proof.
  unfold poison_step.
  destruct (update_player_poison (the_player s) (ext s)) as [[msg p'] x'].
  cbn [fst snd]. cbv zeta.
  destruct (Py.truthy msg) eqn:Hm; cbn [andb].
  - rewrite player_add_message_if.
    change (the_player (emit (PoisonTick msg (player_is_alive p'))
                          (set_ext x' (set_player p' s)))) with p'.
    destruct (player_is_alive p'); cbn [negb].
    + rewrite buff_step_trace, trace_add_message_if, player_add_message_if. cbn.
      now rewrite <- !app_assoc.
    + rewrite trace_add_message_if. cbn. now rewrite <- !app_assoc, app_nil_r.
  - rewrite buff_step_trace, (log_of_falsy _ Hm). cbn. now rewrite <- !app_assoc.
Qed.

Lemma enemy_loop_trace (todo : list Enemy) : forall (i : nat) (dead : list nat) (s : GameEngine),
  exists d,
    trace (snd (enemy_loop todo i dead s)) = trace s ++ d
    /\ if fst (fst (enemy_loop todo i dead s))
       then exists d0 k m,
              d = d0 ++ EnemyActed k false :: log_of m /\ forallb calm_event d0 = true
       else forallb calm_event d = true.
Proof.
  induction todo as [|e rest IH]; intros i dead s; cbn [enemy_loop].
  - exists []. now rewrite app_nil_r.
  - destruct (enemy_is_alive e); [|apply IH].
    destruct (enemy_take_turn e _ _ _ _ _) as [[[msg e'] p'] x'].
    cbv beta iota zeta. rewrite player_add_message_if.
    match goal with |- context [the_player (emit ?ev (set_ext ?x (set_player ?p ?s0)))] =>
      change (the_player (emit ev (set_ext x (set_player p s0)))) with p end.
    destruct (player_is_alive p') eqn:Hp; cbn [negb].
    + match goal with |- context [enemy_loop rest (S i) dead ?s3] =>
        destruct (IH (S i) dead s3) as [d [Ht Hshape]];
        exists (EnemyActed i true :: log_of msg ++ d); split;
        [ rewrite Ht, trace_add_message_if; cbn; now rewrite <- !app_assoc |];
        destruct (fst (fst (enemy_loop rest (S i) dead s3)))
      end.
      * destruct Hshape as (d0 & k & m & -> & H0).
        exists (EnemyActed i true :: log_of msg ++ d0), k, m. split.
        -- cbn. now rewrite <- app_assoc.
        -- cbn. now rewrite forallb_app, log_of_calm, H0.
      * cbn. now rewrite forallb_app, log_of_calm, Hshape.
    + exists (EnemyActed i false :: log_of msg). cbn [fst snd]. split.
      * rewrite trace_add_message_if. cbn. now rewrite <- !app_assoc.
      * now exists [], i, msg.
Qed.

Lemma enemy_turn_trace (s : GameEngine) :
  exists d,
    trace (_enemy_turn s) = trace s ++ EnemyTurnPass :: d
    /\ if pass_halted s
       then exists d0 k m,
              d = d0 ++ EnemyActed k false :: log_of m /\ forallb calm_event d0 = true
       else exists d0 dead pm pa bm,
              d = d0 ++ PurgeDead dead :: PoisonTick pm pa :: log_of pm
                     ++ (if Py.truthy pm && negb pa then [] else BuffTick :: log_of bm)
              /\ forallb calm_event d0 = true.
Proof.
  unfold _enemy_turn, pass_halted. cbv zeta.
  set (s0 := emit EnemyTurnPass s).
  destruct (enemy_loop_trace (enemies (game_state s0)) 0 [] s0) as [d [Ht Hshape]].
  destruct (enemy_loop (enemies (game_state s0)) 0 [] s0) as [[halted dead] s1].
  cbn [fst snd] in *. destruct halted.
  - exists d. split; [|exact Hshape]. rewrite Ht. cbn. now rewrite <- app_assoc.
  - eexists. split.
    + rewrite poison_step_trace. cbn -[log_of]. rewrite Ht. cbn -[log_of].
      rewrite <- !app_assoc. cbn -[log_of]. reflexivity.
    + exists d, dead. do 3 eexists. split; [reflexivity|exact Hshape].
Qed.

Lemma set_slot_length {A : Type} (i : nat) (x : A) (l : list A) :
  length (set_slot i x l) = length l.
Proof.
  revert i. induction l as [|h t IH]; intros [|i]; cbn; auto.
Qed.

Lemma enemy_loop_halted_length (todo : list Enemy) :
  forall (i : nat) (dead : list nat) (s : GameEngine),
  length (enemies (game_state (snd (enemy_loop todo i dead s))))
  = length (enemies (game_state s)).
Proof.
  induction todo as [|e rest IH]; intros i dead s; cbn [enemy_loop]; [reflexivity|].
  destruct (enemy_is_alive e); [|apply IH].
  destruct (enemy_take_turn e _ _ _ _ _) as [[[msg e'] p'] x'].
  cbv beta iota zeta.
  match goal with |- context [if ?b then _ else _] => destruct b end; cbn [snd].
  - rewrite enemies_add_message_if. cbn. apply set_slot_length.
  - rewrite IH, enemies_add_message_if. cbn. apply set_slot_length.
Qed.

(** C2: in an enemy turn, once an enemy's action has left the player dead,
    the rest of the pass emits nothing but that action's log line: no later
    enemy acts, and neither the purge of dead enemies nor the poison tick
    nor the buff tick runs; the loop was left by [return] and the enemies
    collection still has every slot. *)
Theorem player_death_halts_the_pass (s : GameEngine) (pre : list Event) (k : nat)
    (post : list Event) :
  trace (_enemy_turn s) = trace s ++ pre ++ EnemyActed k false :: post ->
  (forall e, In e post -> exists m, e = LogInfo m)
  /\ pass_halted s = true
  /\ length (enemies (game_state (_enemy_turn s))) = length (enemies (game_state s)).
Proof.
  intros Hsplit.
  destruct (enemy_turn_trace s) as [d [Ht Hshape]].
  rewrite Ht in Hsplit. apply app_inv_head in Hsplit.
  assert (Hhalt : pass_halted s = true).
  { destruct (pass_halted s); [reflexivity|exfalso].
    destruct Hshape as (d0 & dead & pm & pa & bm & -> & H0).
    revert Hsplit. apply (no_split is_death); [|reflexivity].
    cbn. rewrite forallb_app. cbn.
    rewrite (calm_not is_death d0 calm_not_death H0), forallb_app.
    rewrite (calm_not is_death _ calm_not_death (log_of_calm pm)).
    destruct (Py.truthy pm && negb pa); cbn; [reflexivity|].
    apply (calm_not is_death _ calm_not_death (log_of_calm bm)). }
  split; [|split; [exact Hhalt|]].
  - rewrite Hhalt in Hshape. destruct Hshape as (d0 & k0 & m & -> & H0).
    change (EnemyTurnPass :: d0 ++ EnemyActed k0 false :: log_of m)
      with ((EnemyTurnPass :: d0) ++ EnemyActed k0 false :: log_of m) in Hsplit.
    apply (split_unique is_death) in Hsplit as (_ & _ & ->).
    + intros e He. pose proof (log_of_is_log m) as Hl.
      rewrite forallb_forall in Hl. specialize (Hl e He).
      destruct e; try discriminate. now eexists.
    + cbn. apply (calm_not is_death d0 calm_not_death H0).
    + apply (calm_not is_death _ calm_not_death (log_of_calm m)).
    + reflexivity.
  - unfold _enemy_turn, pass_halted in *. cbv zeta in *.
    set (s0 := emit EnemyTurnPass s) in *.
    pose proof (enemy_loop_halted_length (enemies (game_state s0)) 0 [] s0) as Hlen.
    destruct (enemy_loop (enemies (game_state s0)) 0 [] s0) as [[halted dead] s1].
    cbn [fst snd] in *. subst halted. exact Hlen.
Qed.

(** C7, amended: in an enemy turn, when the poison tick returns a message
    and leaves the player dead, the buff tick does not run: after the tick
    the pass emits only the log line of that message. *)
Theorem reported_poison_death_skips_buff_tick (s : GameEngine) (pre : list Event)
    (m : option string) (post : list Event) :
  trace (_enemy_turn s) = trace s ++ pre ++ PoisonTick m false :: post ->
  Py.truthy m = true ->
  post = log_of m /\ ~ In BuffTick post.
Proof.
  intros Hsplit Hm.
  destruct (enemy_turn_trace s) as [d [Ht Hshape]].
  rewrite Ht in Hsplit. apply app_inv_head in Hsplit.
  destruct (pass_halted s).
  - exfalso. destruct Hshape as (d0 & k & m0 & -> & H0).
    revert Hsplit. apply (no_split is_poison_tick); [|reflexivity].
    cbn. rewrite forallb_app. cbn.
    rewrite (calm_not is_poison_tick d0 calm_not_poison H0).
    apply (calm_not is_poison_tick _ calm_not_poison (log_of_calm m0)).
  - destruct Hshape as (d0 & dead & pm & pa & bm & -> & H0).
    match type of Hsplit with EnemyTurnPass :: d0 ++ PurgeDead dead :: ?x :: ?b = _ =>
      change (EnemyTurnPass :: d0 ++ PurgeDead dead :: x :: b)
        with ((EnemyTurnPass :: d0 ++ [PurgeDead dead]) ++ x :: b) in Hsplit
        || (replace (EnemyTurnPass :: d0 ++ PurgeDead dead :: x :: b)
              with ((EnemyTurnPass :: d0 ++ [PurgeDead dead]) ++ x :: b) in Hsplit
              by (cbn; now rewrite <- app_assoc))
    end.
    apply (split_unique is_poison_tick) in Hsplit as (_ & Hev & ->).
    + injection Hev as <- <-. rewrite Hm. cbn. rewrite app_nil_r. split; [reflexivity|].
      intros Hin. pose proof (log_of_is_log m) as Hl.
      rewrite forallb_forall in Hl. now specialize (Hl _ Hin).
    + cbn. rewrite forallb_app. cbn.
      now rewrite (calm_not is_poison_tick d0 calm_not_poison H0).
    + rewrite forallb_app.
      rewrite (calm_not is_poison_tick _ calm_not_poison (log_of_calm pm)).
      destruct (Py.truthy pm && negb pa); cbn; [reflexivity|].
      apply (calm_not is_poison_tick _ calm_not_poison (log_of_calm bm)).
    + reflexivity.
Qed.

(** *** Attacking instead of moving *)



Section Position.

Context {K : KeepsPosition}.


Lemma enemy_loop_position (todo : list Enemy) :
  forall (i : nat) (dead : list nat) (s : GameEngine),
  position (the_player (snd (enemy_loop todo i dead s))) = position (the_player s).
Proof.
  induction todo as [|e rest IH]; intros i dead s; cbn [enemy_loop]; [reflexivity|].
  destruct (enemy_is_alive e); [|apply IH].
  match goal with |- context [enemy_take_turn ?e0 ?p ?m ?w ?h ?x] =>
    pose proof (enemy_take_turn_keeps e0 p m w h x) as Hk;
    destruct (enemy_take_turn e0 p m w h x) as [[[msg e'] p'] x']
  end.
  cbn [fst snd] in Hk. cbv beta iota zeta.
  match goal with |- context [if ?b then _ else _] => destruct b end; cbn [snd].
  - now rewrite player_add_message_if.
  - now rewrite IH, player_add_message_if.
Qed.

Lemma buff_step_position (s : GameEngine) :
  position (the_player (buff_step s)) = position (the_player s).
Proof.
  unfold buff_step. pose proof (ticker_keeps_position (the_player s)) as H.
  destruct (_update_temporary_effects (the_player s)) as [msg p'].
  now rewrite player_add_message_if.
Qed.

Lemma poison_step_position (s : GameEngine) :
  position (the_player (poison_step s)) = position (the_player s).
Proof.
  unfold poison_step.
  pose proof (update_player_poison_keeps (the_player s) (ext s)) as H.
  destruct (update_player_poison (the_player s) (ext s)) as [[msg p'] x'].
  cbn [fst snd] in H. cbv zeta.
  destruct (Py.truthy msg).
  - match goal with |- context [if ?b then _ else _] => destruct b end.
    + now rewrite player_add_message_if.
    + now rewrite buff_step_position, player_add_message_if.
  - now rewrite buff_step_position.
Qed.

Lemma enemy_turn_position (s : GameEngine) :
  position (the_player (_enemy_turn s)) = position (the_player s).
Proof.
  unfold _enemy_turn. cbv zeta.
  set (s0 := emit EnemyTurnPass s).
  pose proof (enemy_loop_position (enemies (game_state s0)) 0 [] s0) as H.
  destruct (enemy_loop (enemies (game_state s0)) 0 [] s0) as [[halted dead] s1].
  cbn [snd] in H. destruct halted; [exact H|].
  now rewrite poison_step_position.
Qed.

End Position.

Lemma enemy_turn_then_fov (s : GameEngine) :
  exists d, trace (_update_fov (_enemy_turn s)) = trace s ++ EnemyTurnPass :: d ++ [UpdateFov]
            /\ forallb pass_event d = true.
Proof.
  destruct (enemy_turn_trace s) as [d [Ht Hshape]].
  exists d. split.
  - cbn. rewrite Ht. now rewrite <- app_assoc.
  - assert (Hcalm : forall l, forallb calm_event l = true -> forallb pass_event l = true).
    { intros l. apply forallb_weaken.
      intros e He. destruct e; try discriminate He; reflexivity. }
    destruct (pass_halted s).
    + destruct Hshape as (d0 & k & m & -> & H0).
      rewrite forallb_app. cbn. now rewrite (Hcalm _ H0), (Hcalm _ (log_of_calm m)).
    + destruct Hshape as (d0 & dead & pm & pa & bm & -> & H0).
      rewrite forallb_app. cbn. rewrite forallb_app, (Hcalm _ H0), (Hcalm _ (log_of_calm pm)).
      destruct (Py.truthy pm && negb pa); cbn; [reflexivity|].
      apply (Hcalm _ (log_of_calm bm)).
Qed.


(** *** Level generation: what spawning leaves alone *)

Lemma place_attempts_stable (n : nat) (it : Item) : forall s : GameEngine,
  stable_part (place_attempts n it s) = stable_part s
  /\ trace (place_attempts n it s) = trace s.
Proof.
  induction n as [|n IH]; intros s; cbn [place_attempts]; [now split|].
  destruct (get_random_walkable_position _ _) as [[q|] x']; [now split|].
  destruct (IH (set_ext x' s)) as [-> ->]. now split.
Qed.

Lemma repeat_times_stable (body : GameEngine -> GameEngine) (n : nat) :
  (forall s, stable_part (body s) = stable_part s /\ trace (body s) = trace s) ->
  forall s, stable_part (repeat_times n body s) = stable_part s
            /\ trace (repeat_times n body s) = trace s.
Proof.
  intros Hbody. induction n as [|n IH]; intros s; cbn [repeat_times]; [now split|].
  destruct (IH (body s)) as [-> ->]. apply Hbody.
Qed.

Lemma spawn_random_item_stable (group first : string) (others : list string)
    (s : GameEngine) :
  stable_part (spawn_random_item group first others s) = stable_part s
  /\ trace (spawn_random_item group first others s) = trace s.
Proof.
  unfold spawn_random_item, random_choice, _place_item.
  destruct (random_index _ _) as [r x'].
  match goal with |- context [place_attempts 50 ?it ?s0] =>
    destruct (place_attempts_stable 50 it s0) as [-> ->] end.
  now split.
Qed.

Lemma spawn_items_stable (level : Z) (s : GameEngine) :
  stable_part (_spawn_items level s) = stable_part s
  /\ trace (_spawn_items level s) = trace s.
Proof.
  unfold _spawn_items. cbv zeta.
  match goal with |- context [repeat_times ?n ?b (if ?c then ?s1 else ?s2)] =>
    destruct (repeat_times_stable b n) with (s := if c then s1 else s2) as [-> ->] end.
  { intros s0. unfold _place_item.
    match goal with |- context [place_attempts 50 ?it ?s1] =>
      destruct (place_attempts_stable 50 it s1) as [-> ->] end.
    now split. }
  destruct (level >? 1).
  - match goal with |- context [repeat_times ?n ?b (repeat_times ?n0 ?b0 ?s0)] =>
      destruct (repeat_times_stable b n) with (s := repeat_times n0 b0 s0) as [-> ->];
      [intros; apply spawn_random_item_stable|];
      destruct (repeat_times_stable b0 n0) with (s := s0) as [-> ->];
      [intros; apply spawn_random_item_stable|]
    end.
    now split.
  - match goal with |- context [repeat_times ?n ?b ?s0] =>
      destruct (repeat_times_stable b n) with (s := s0) as [-> ->];
      [intros; apply spawn_random_item_stable|]
    end.
    now split.
Qed.

Lemma enemy_attempts_stable (n : nat) (enemy_type : string) (cfg : EnemyConfig) :
  forall s : GameEngine,
  stable_part (enemy_attempts n enemy_type cfg s) = stable_part s
  /\ trace (enemy_attempts n enemy_type cfg s) = trace s.
Proof.
  induction n as [|n IH]; intros s; cbn [enemy_attempts]; [now split|].
  destruct (get_random_walkable_position _ _) as [[q|] x'].
  - destruct (distance_exceeds _ _ _); [now split|].
    destruct (IH (set_ext x' s)) as [-> ->]. now split.
  - destruct (IH (set_ext x' s)) as [-> ->]. now split.
Qed.

Lemma spawn_loop_stable (n : nat) (available : list (string * EnemyConfig)) :
  forall s : GameEngine,
  stable_part (spawn_loop n available s) = stable_part s
  /\ trace (spawn_loop n available s) = trace s.
Proof.
  induction n as [|n IH]; intros s; cbn [spawn_loop]; [now split|].
  destruct available as [|d rest]; [now split|].
  unfold random_choice. destruct (random_index _ _) as [r x'].
  destruct (nth _ _ _) as [enemy_type cfg].
  match goal with |- context [spawn_loop n ?av ?s0] =>
    destruct (IH s0) as [-> ->] end.
  match goal with |- context [enemy_attempts 50 ?t ?c ?s0] =>
    destruct (enemy_attempts_stable 50 t c s0) as [-> ->] end.
  now split.
Qed.

Lemma spawn_enemies_stable (level : Z) (s : GameEngine) :
  stable_part (final (_spawn_enemies level s)) = stable_part s
  /\ exists d, trace (final (_spawn_enemies level s)) = trace s ++ d.
Proof.
  unfold _spawn_enemies. cbv zeta. destruct (level =? total_levels).
  - destruct (Py.getitem _ _) as [boss_room|].
    + destruct (get_random_floor_position _ _) as [boss_pos x']. cbn [final].
      split; [reflexivity|]. now exists [LogInfo boss_warning].
    + cbn [final]. split; [reflexivity|]. exists []. now rewrite app_nil_r.
  - cbn [final].
    match goal with |- context [spawn_loop ?n ?av s] =>
      destruct (spawn_loop_stable n av s) as [-> ->] end.
    split; [reflexivity|]. exists []. now rewrite app_nil_r.
Qed.

(** *** Level generation: what it depends on *)

Tactic Notation "view_field" hyp(H) constr(f) ident(E) :=
  pose proof (f_equal f H) as E;
  cbn [fst snd floor_view gs_set_messages current_level game_map explored visible
       rooms player enemies items traps stairs_up stairs_down width height] in E.

Ltac view_fields H :=
  unfold the_player in *;
  view_field H (fun v : GameState * Ext => current_level (fst v)) Hlevel;
  view_field H (fun v : GameState * Ext => game_map (fst v)) Hmap;
  view_field H (fun v : GameState * Ext => explored (fst v)) Hexplored;
  view_field H (fun v : GameState * Ext => visible (fst v)) Hvisible;
  view_field H (fun v : GameState * Ext => rooms (fst v)) Hrooms;
  view_field H (fun v : GameState * Ext => player (fst v)) Hplayer;
  view_field H (fun v : GameState * Ext => enemies (fst v)) Henemies;
  view_field H (fun v : GameState * Ext => items (fst v)) Hitems;
  view_field H (fun v : GameState * Ext => traps (fst v)) Htraps;
  view_field H (fun v : GameState * Ext => stairs_up (fst v)) Hup;
  view_field H (fun v : GameState * Ext => stairs_down (fst v)) Hdown;
  view_field H (fun v : GameState * Ext => width (fst v)) Hwidth;
  view_field H (fun v : GameState * Ext => height (fst v)) Hheight;
  view_field H (fun v : GameState * Ext => snd v) Hext.

Ltac same_view :=
  unfold the_player in *;
  unfold floor_view, add_message, emit, set_ext, set_player, set_enemies, set_items,
    set_traps, on_state, gs_set_messages, gs_set_items, gs_set_enemies, gs_set_player,
    gs_set_traps, gs_set_masks, gs_set_floor;
  cbn [game_state ext current_level game_map explored visible rooms player enemies
       items traps messages stairs_up stairs_down width height];
  congruence.

Lemma place_attempts_view (n : nat) (it : Item) : forall s t : GameEngine,
  floor_view s = floor_view t ->
  floor_view (place_attempts n it s) = floor_view (place_attempts n it t).
Proof.
  induction n as [|n IH]; intros s t H; cbn [place_attempts]; [exact H|].
  view_fields H. rewrite Hmap, Hext.
  destruct (get_random_walkable_position _ _) as [[q|] x'].
  - same_view.
  - apply IH. same_view.
Qed.

Lemma repeat_times_view (body : GameEngine -> GameEngine) (n : nat) :
  (forall s t, floor_view s = floor_view t -> floor_view (body s) = floor_view (body t)) ->
  forall s t, floor_view s = floor_view t ->
              floor_view (repeat_times n body s) = floor_view (repeat_times n body t).
Proof.
  intros Hbody. induction n as [|n IH]; intros s t H; cbn [repeat_times]; auto.
Qed.

Lemma spawn_random_item_view (group first : string) (others : list string)
    (s t : GameEngine) :
  floor_view s = floor_view t ->
  floor_view (spawn_random_item group first others s)
  = floor_view (spawn_random_item group first others t).
Proof.
  intros H. unfold spawn_random_item, random_choice, _place_item.
  view_fields H. rewrite Hext.
  destruct (random_index _ _) as [r x'].
  apply place_attempts_view. same_view.
Qed.

Lemma spawn_items_view (level : Z) (s t : GameEngine) :
  floor_view s = floor_view t ->
  floor_view (_spawn_items level s) = floor_view (_spawn_items level t).
Proof.
  intros H. unfold _spawn_items. cbv zeta.
  apply repeat_times_view.
  { intros s0 t0 H0. now apply place_attempts_view. }
  destruct (level >? 1); repeat apply repeat_times_view;
    auto using spawn_random_item_view.
Qed.

Lemma enemy_attempts_view (n : nat) (enemy_type : string) (cfg : EnemyConfig) :
  forall s t : GameEngine,
  floor_view s = floor_view t ->
  floor_view (enemy_attempts n enemy_type cfg s)
  = floor_view (enemy_attempts n enemy_type cfg t).
Proof.
  induction n as [|n IH]; intros s t H; cbn [enemy_attempts]; [exact H|].
  view_fields H. rewrite Hmap, Hext.
  destruct (get_random_walkable_position _ _) as [[q|] x'].
  - cbn [the_player set_ext on_state game_state player] . unfold the_player. cbn.
    rewrite Hplayer. destruct (distance_exceeds _ _ _).
    + same_view.
    + apply IH. same_view.
  - apply IH. same_view.
Qed.

Lemma spawn_loop_view (n : nat) (available : list (string * EnemyConfig)) :
  forall s t : GameEngine,
  floor_view s = floor_view t ->
  floor_view (spawn_loop n available s) = floor_view (spawn_loop n available t).
Proof.
  induction n as [|n IH]; intros s t H; cbn [spawn_loop]; [exact H|].
  destruct available as [|d rest]; [exact H|].
  unfold random_choice. view_fields H. rewrite Hext.
  destruct (random_index _ _) as [r x'].
  destruct (nth _ _ _) as [enemy_type cfg].
  apply IH, enemy_attempts_view. same_view.
Qed.

Lemma spawn_enemies_view (level : Z) (s t : GameEngine) :
  floor_view s = floor_view t ->
  same_outcome (_spawn_enemies level s) (_spawn_enemies level t).
Proof.
  intros H. unfold _spawn_enemies. cbv zeta. destruct (level =? total_levels).
  - view_fields H. rewrite Hrooms, Hext.
    destruct (Py.getitem _ _) as [boss_room|].
    + destruct (get_random_floor_position _ _) as [boss_pos x'].
      cbn [same_outcome]. same_view.
    + cbn [same_outcome]. split; [reflexivity|exact H].
  - cbn [same_outcome]. now apply spawn_loop_view.
Qed.

(** *** Level generation: the new floor *)

Tactic Notation "stable_field" hyp(H) constr(f) ident(E) :=
  pose proof (f_equal f H) as E;
  cbn [stable_part gs_set_messages gs_set_items gs_set_enemies current_level game_map
       explored visible rooms player enemies items traps stairs_up stairs_down width
       height] in E.

Ltac stable_fields H :=
  stable_field H current_level Hlevel;
  stable_field H game_map Hmap;
  stable_field H explored Hexplored;
  stable_field H visible Hvisible;
  stable_field H rooms Hrooms;
  stable_field H player Hplayer;
  stable_field H traps Htraps;
  stable_field H stairs_up Hup;
  stable_field H stairs_down Hdown;
  stable_field H width Hwidth;
  stable_field H height Hheight.

Lemma generate_level_floor (level : Z) (s : GameEngine) :
  let d := fst (generate level (ext s)) in
  let g' := game_state (final (_generate_level level s)) in
  player g' = set_position (dd_player_start d) (the_player s)
  /\ current_level g' = level
  /\ game_map g' = dd_map d
  /\ rooms g' = dd_rooms d
  /\ stairs_up g' = dd_stairs_up d
  /\ stairs_down g' = dd_stairs_down d
  /\ width g' = dd_width d
  /\ height g' = dd_height d
  /\ (exists t, trace (final (_generate_level level s))
                = trace s ++ LogInfo ("生成第" ++ Py.str level ++ "层地牢")%string
                            :: Generate level :: t)
  /\ (forall s', _generate_level level s = Returned s' ->
        visible (game_state s')
        = compute_visible (dd_map d) (dd_player_start d) (dd_width d) (dd_height d)
        /\ explored (game_state s')
           = update_explored (visible (game_state s'))
               (blank_mask (dd_width d) (dd_height d))
        /\ exists x, traps (game_state s')
                     = fst (generate_traps (dd_map d) (dd_width d) (dd_height d) level
                              (dd_player_start d) x)).
Proof.
  unfold _generate_level. cbv zeta.
  change (ext (emit (LogInfo ("生成第" ++ Py.str level ++ "层地牢")%string) s)) with (ext s).
  destruct (generate level (ext s)) as [d x']. cbn [fst].
  assert (Hstart : mkPosition (pos_x (dd_player_start d)) (pos_y (dd_player_start d))
                   = dd_player_start d) by now destruct (dd_player_start d).
  match goal with |- context [_spawn_enemies level ?s6] => set (start := s6) end.
  assert (Hfloor : stable_part start
                   = mkGameState level (dd_map d)
                       (blank_mask (dd_width d) (dd_height d))
                       (blank_mask (dd_width d) (dd_height d)) (dd_rooms d)
                       (set_position (dd_player_start d) (the_player s)) [] [] [] []
                       (dd_stairs_up d) (dd_stairs_down d) (dd_width d) (dd_height d)).
  { subst start. unfold move_to. rewrite Hstart. reflexivity. }
  assert (Htrace : trace start
                   = trace s ++ [LogInfo ("生成第" ++ Py.str level ++ "层地牢")%string;
                                 Generate level;
                                 MoveTo (pos_x (dd_player_start d))
                                        (pos_y (dd_player_start d))]).
  { subst start. cbn [trace set_traps set_items set_enemies set_player on_state emit set_ext].
    now rewrite <- !app_assoc. }
  clearbody start.
  destruct (spawn_enemies_stable level start) as [Hen [de Hde]].
  destruct (_spawn_enemies level start) as [s7|e s7]; cbn [final] in *.
  - destruct (spawn_items_stable level s7) as [Hit Htr]. rewrite Hen, Hfloor in Hit.
    stable_fields Hit.
    destruct (generate_traps _ _ _ _ _ _) as [tr x''] eqn:Etraps. cbn [final].
    repeat (split; [assumption|]).
    split.
    + exists (MoveTo (pos_x (dd_player_start d)) (pos_y (dd_player_start d))
                :: de ++ [GenerateTraps level; UpdateFov;
                          LogInfo ("进入第" ++ Py.str level ++ "层地牢")%string]).
      cbn [trace add_message _update_fov set_traps on_state emit set_ext].
      rewrite Htr, Hde, Htrace. now rewrite <- !app_assoc.
    + intros s' [= <-].
      cbn [game_state visible explored traps add_message _update_fov set_traps on_state
           emit set_ext gs_set_masks gs_set_messages gs_set_traps game_map player width
           height].
      rewrite Hmap, Hplayer, Hwidth, Hheight, Hexplored.
      split; [reflexivity|]. split; [reflexivity|].
      exists (ext (_spawn_items level s7)).
      rewrite Hmap, Hwidth, Hheight in Etraps. now rewrite Etraps.
  - rewrite Hfloor in Hen. stable_fields Hen.
    repeat (split; [assumption|]).
    split.
    + exists (MoveTo (pos_x (dd_player_start d)) (pos_y (dd_player_start d)) :: de).
      rewrite Hde, Htrace. now rewrite <- !app_assoc.
    + discriminate.
Qed.

Lemma update_fov_view (s t : GameEngine) :
  floor_view s = floor_view t -> floor_view (_update_fov s) = floor_view (_update_fov t).
Proof.
  intros H. unfold _update_fov. cbv zeta. view_fields H.
  rewrite Hmap, Hplayer, Hwidth, Hheight, Hexplored. same_view.
Qed.

Lemma add_message_view (m : string) (s : GameEngine) :
  floor_view (add_message m s) = floor_view s.
Proof. reflexivity. Qed.

Lemma generate_level_view (level : Z) (s t : GameEngine) :
  the_player s = the_player t -> ext s = ext t ->
  same_outcome (_generate_level level s) (_generate_level level t).
Proof.
  intros Hp Hx. unfold _generate_level. cbv zeta.
  change (ext (emit (LogInfo ("生成第" ++ Py.str level ++ "层地牢")%string) s)) with (ext s).
  change (ext (emit (LogInfo ("生成第" ++ Py.str level ++ "层地牢")%string) t)) with (ext t).
  rewrite Hx. destruct (generate level (ext t)) as [d x'].
  match goal with
  | |- same_outcome (match _spawn_enemies level ?a with _ => _ end)
                    (match _spawn_enemies level ?b with _ => _ end) =>
      assert (Hstart : floor_view a = floor_view b)
        by (unfold floor_view; cbn; unfold the_player in *; now rewrite Hp);
      pose proof (spawn_enemies_view level a b Hstart) as Hen;
      destruct (_spawn_enemies level a) as [s7|e1 s7];
      destruct (_spawn_enemies level b) as [t7|e2 t7]
  end; cbn [same_outcome] in Hen; try contradiction.
  - pose proof (spawn_items_view level s7 t7 Hen) as Hit.
    view_fields Hit. rewrite Hmap, Hwidth, Hheight, Hext.
    destruct (generate_traps _ _ _ _ _ _) as [tr x''].
    cbn [same_outcome]. rewrite !add_message_view. apply update_fov_view. same_view.
  - exact Hen.
Qed.

(** C9: a level regeneration keeps the player entity and resets only its
    position, to the start the generator provides; level number, map,
    rooms, stairs and dimensions are those of the new floor, the masks are
    recomputed from blank ones and the traps are the generated ones; and
    the new floor does not depend on the old one: from any engine with the
    same player and the same collaborators the generation has the same
    outcome, enemies and items included. *)
Theorem regeneration_keeps_player_replaces_floor (level : Z) (s : GameEngine) :
  let d := fst (generate level (ext s)) in
  let g' := game_state (final (_generate_level level s)) in
  player g' = set_position (dd_player_start d) (the_player s)
  /\ atk (player g') = atk (the_player s)
  /\ gold (player g') = gold (the_player s)
  /\ inventory (player g') = inventory (the_player s)
  /\ max_inventory (player g') = max_inventory (the_player s)
  /\ temp_atk_duration (player g') = temp_atk_duration (the_player s)
  /\ player_data (player g') = player_data (the_player s)
  /\ position (player g') = dd_player_start d
  /\ current_level g' = level
  /\ game_map g' = dd_map d
  /\ rooms g' = dd_rooms d
  /\ stairs_up g' = dd_stairs_up d
  /\ stairs_down g' = dd_stairs_down d
  /\ width g' = dd_width d
  /\ height g' = dd_height d
  /\ (forall s', _generate_level level s = Returned s' ->
        visible (game_state s')
        = compute_visible (dd_map d) (dd_player_start d) (dd_width d) (dd_height d)
        /\ explored (game_state s')
           = update_explored (visible (game_state s'))
               (blank_mask (dd_width d) (dd_height d))
        /\ exists x, traps (game_state s')
                     = fst (generate_traps (dd_map d) (dd_width d) (dd_height d) level
                              (dd_player_start d) x))
  /\ (forall t, the_player t = the_player s -> ext t = ext s ->
        same_floor (game_state (final (_generate_level level t))) g'
        /\ same_outcome (_generate_level level t) (_generate_level level s)).
Proof.
  cbv zeta.
  destruct (generate_level_floor level s)
    as (Hp & Hl & Hm & Hr & Hu & Hd & Hw & Hh & _ & Hret). cbv zeta in *.
  split; [exact Hp|]. rewrite Hp.
  repeat (split; [reflexivity || assumption|]).
  intros t Hpt Hxt. pose proof (generate_level_view level t s Hpt Hxt) as Hsame.
  split; [|exact Hsame]. unfold same_floor.
  destruct (_generate_level level t), (_generate_level level s);
    cbn [same_outcome final] in *; try contradiction.
  - exact (f_equal fst Hsame).
  - exact (f_equal fst (proj2 Hsame)).
Qed.

(** *** Stairs down *)

(** C6: descending while the floor index equals the configured final floor
    ends the game in victory: the loop flag is cleared, the victory screen
    is rendered, the world state is untouched and no floor is generated;
    descending from a lower floor is the level generation for the next
    floor index and regenerates the floor state: the next index becomes the
    current level, map, rooms, stairs and dimensions are those the
    generator returns for it, the player is the same entity at the
    generator's start, masks and traps are recomputed on the new map, and
    the outcome, enemies and items included, is the one the generation of
    that level gives from any engine with the same player and the same
    collaborators, so nothing of the floor left behind remains. *)
Theorem descend_wins_or_generates (s : GameEngine) :
  (current_level (game_state s) = total_levels ->
     exists s', _go_downstairs s = Returned s'
       /\ running s' = false
       /\ game_state s' = game_state s
       /\ trace s' = trace s ++ [GoDownstairs; RenderGameOver true; WaitForKey;
                                 LogInfo "玩家胜利"])
  /\ (current_level (game_state s) < total_levels ->
     let next := current_level (game_state s) + 1 in
     let d := fst (generate next (ext s)) in
     let g' := game_state (final (_go_downstairs s)) in
     _go_downstairs s = _generate_level next (emit GoDownstairs s)
     /\ current_level g' = next
     /\ game_map g' = dd_map d
     /\ rooms g' = dd_rooms d
     /\ stairs_up g' = dd_stairs_up d
     /\ stairs_down g' = dd_stairs_down d
     /\ width g' = dd_width d
     /\ height g' = dd_height d
     /\ player g' = set_position (dd_player_start d) (the_player s)
     /\ (exists t, trace (final (_go_downstairs s))
                   = trace s ++ GoDownstairs
                       :: LogInfo ("生成第" ++ Py.str next ++ "层地牢")%string
                       :: Generate next :: t)
     /\ (forall s', _go_downstairs s = Returned s' ->
           visible (game_state s')
           = compute_visible (dd_map d) (dd_player_start d) (dd_width d) (dd_height d)
           /\ explored (game_state s')
              = update_explored (visible (game_state s'))
                  (blank_mask (dd_width d) (dd_height d))
           /\ exists x, traps (game_state s')
                        = fst (generate_traps (dd_map d) (dd_width d) (dd_height d) next
                                 (dd_player_start d) x))
     /\ (forall t, the_player t = the_player s -> ext t = ext s ->
           same_outcome (_generate_level next t) (_go_downstairs s)
           /\ same_floor (game_state (final (_generate_level next t))) g')).
Proof.
  split.
  - intros Hfinal. unfold _go_downstairs. cbv zeta.
    change (current_level (game_state (emit GoDownstairs s)))
      with (current_level (game_state s)).
    rewrite Hfinal. replace (total_levels >=? total_levels) with true
      by (symmetry; apply Z.geb_le; lia).
    eexists. split; [reflexivity|]. repeat split.
    cbn. now rewrite <- !app_assoc.
  - intros Hlow. cbv zeta.
    assert (Hgo : _go_downstairs s
                  = _generate_level (current_level (game_state s) + 1)
                      (emit GoDownstairs s)).
    { unfold _go_downstairs. cbv zeta.
      change (current_level (game_state (emit GoDownstairs s)))
        with (current_level (game_state s)).
      now replace (current_level (game_state s) >=? total_levels) with false
        by (symmetry; rewrite Z.geb_leb; apply Z.leb_gt; lia). }
    rewrite Hgo.
    destruct (generate_level_floor (current_level (game_state s) + 1) (emit GoDownstairs s))
      as (Hp & Hl & Hm & Hr & Hu & Hd & Hw & Hh & [t Ht] & Hret). cbv zeta in *.
    change (ext (emit GoDownstairs s)) with (ext s) in *.
    change (the_player (emit GoDownstairs s)) with (the_player s) in *.
    split; [reflexivity|].
    repeat (split; [assumption|]).
    split; [|split; [exact Hret|]].
    + exists t. rewrite Ht. cbn. now rewrite <- !app_assoc.
    + intros t0 Hpt Hxt.
      pose proof (generate_level_view (current_level (game_state s) + 1) t0
                    (emit GoDownstairs s) Hpt Hxt) as Hsame.
      split; [exact Hsame|]. unfold same_floor.
      destruct (_generate_level _ t0), (_generate_level _ (emit GoDownstairs s));
        cbn [same_outcome final] in *; try contradiction.
      * exact (f_equal fst Hsame).
      * exact (f_equal fst (proj2 Hsame)).
Qed.

(** *** Pickup rule *)

Lemma left_on_floor_perm (pos : Position) (l : list Item) : forall free : nat,
  Permutation l (coins_here pos l ++ firstn free (goods_here pos l)
                 ++ left_on_floor pos free l).
Proof.
  unfold coins_here, goods_here.
  induction l as [|it rest IH]; intros free; cbn [filter left_on_floor].
  - now destruct free.
  - destruct (here pos it); cbn [andb].
    + destruct (is_currency it); cbn [negb].
      * cbn. apply perm_skip, IH.
      * destruct free as [|f]; cbn [firstn].
        -- apply Permutation_cons_app. apply (IH 0%nat).
        -- apply Permutation_cons_app. apply (IH f).
    + rewrite app_assoc. apply Permutation_cons_app. rewrite <- app_assoc. apply IH.
Qed.

Lemma left_on_floor_here (pos : Position) (l : list Item) : forall free : nat,
  filter (here pos) (left_on_floor pos free l) = skipn free (goods_here pos l).
Proof.
  unfold goods_here.
  induction l as [|it rest IH]; intros free; cbn [filter left_on_floor].
  - now destruct free.
  - destruct (here pos it) eqn:Hh; cbn [andb].
    + destruct (is_currency it); cbn [negb]; [apply IH|].
      destruct free as [|f]; cbn [skipn filter].
      * rewrite Hh. f_equal. apply (IH 0%nat).
      * apply IH.
    + cbn [filter]. rewrite Hh. apply IH.
Qed.

Lemma left_on_floor_away (pos : Position) (l : list Item) : forall free : nat,
  filter (fun it => negb (here pos it)) (left_on_floor pos free l)
  = filter (fun it => negb (here pos it)) l.
Proof.
  induction l as [|it rest IH]; intros free; cbn [filter left_on_floor]; [reflexivity|].
  destruct (here pos it) eqn:Hh; cbn [negb].
  - destruct (is_currency it); [apply IH|].
    destruct free as [|f]; [|apply IH].
    cbn [filter]. rewrite Hh. apply IH.
  - cbn [filter]. rewrite Hh. cbn [negb]. f_equal. apply IH.
Qed.

Lemma not_listed (i : nat) (l : list nat) : ~ In i l -> existsb (Nat.eqb i) l = false.
Proof.
  intros H. destruct (existsb (Nat.eqb i) l) eqn:E; [|reflexivity].
  apply existsb_exists in E as (j & Hj & Heq). apply Nat.eqb_eq in Heq. now subst.
Qed.

Lemma listed (i : nat) (l : list nat) : In i l -> existsb (Nat.eqb i) l = true.
Proof.
  intros H. apply existsb_exists. exists i. split; [assumption|apply Nat.eqb_refl].
Qed.

Lemma picked_up_is_not_full (it : Item) : picked_up_message it <> inventory_full_message.
Proof. discriminate. Qed.

Lemma player_eta (p : Player) :
  set_inventory (inventory p ++ []) (set_gold (gold p + 0) p) = p.
Proof.
  destruct p. unfold set_inventory, set_gold. cbn. now rewrite app_nil_r, Z.add_0_r.
Qed.

Lemma pickup_loop_spec (pos : Position) (todo : list Item) :
  forall (i : nat) (rm : list nat) (s : GameEngine),
  (forall j, In j rm -> (j < i)%nat) ->
  let r := pickup_loop pos todo i rm s in
  let p := the_player s in
  the_player (snd r)
  = set_inventory (inventory p ++ firstn (free_slots p) (goods_here pos todo))
      (set_gold (gold p + total_value (coins_here pos todo)) p)
  /\ items (game_state (snd r)) = items (game_state s)
  /\ del_slots_from i (fst r) todo = left_on_floor pos (free_slots p) todo
  /\ (forall j, In j rm -> In j (fst r))
  /\ (forall j, In j (fst r) -> In j rm \/ (i <= j)%nat)
  /\ exists msgs,
       trace (snd r) = trace s ++ map LogInfo msgs
       /\ length msgs = length (filter (here pos) todo)
       /\ count_occ string_dec msgs inventory_full_message
          = length (skipn (free_slots p) (goods_here pos todo)).
Proof.
  induction todo as [|it rest IH]; intros i rm s Hrm; cbv zeta.
  - cbn [pickup_loop fst snd]. unfold coins_here, goods_here. cbn [filter].
    rewrite firstn_nil, skipn_nil. cbn [total_value fold_right].
    rewrite player_eta. repeat split; auto.
    exists []. cbn. now rewrite app_nil_r.
  - cbn [pickup_loop]. unfold coins_here, goods_here. cbn [filter left_on_floor del_slots_from].
    fold (here pos it). fold (is_currency it).
    fold (coins_here pos rest). fold (goods_here pos rest).
    destruct (here pos it) eqn:Hh; cbn [andb].
    + destruct (is_currency it) eqn:Hc; cbn [negb].
      * (* a coin *)
        match goal with |- context [pickup_loop pos rest (S i) (rm ++ [i]) ?s2] =>
          specialize (IH (S i) (rm ++ [i]) s2) end.
        destruct IH as (Hp & Hi & Hd & Hin & Hout & msgs & Ht & Hn & Hk).
        { intros j Hj. apply in_app_or in Hj as [Hj|[<-|[]]]; [apply Hrm in Hj|]; lia. }
        cbv zeta in *. autorewrite with engine in *.
        split; [|split; [|split; [|split; [|split]]]].
        -- rewrite Hp. unfold set_inventory, set_gold, free_slots. cbn.
           now rewrite Z.add_assoc.
        -- exact Hi.
        -- rewrite listed by (apply Hin, in_or_app; right; now left). exact Hd.
        -- intros j Hj. apply Hin, in_or_app. now left.
        -- intros j Hj. apply Hout in Hj as [Hj|Hj]; [|right; lia].
           apply in_app_or in Hj as [Hj|[<-|[]]]; [now left|right; lia].
        -- exists (picked_up_message it :: msgs). split; [|split].
           ++ rewrite Ht. cbn. now rewrite <- app_assoc.
           ++ cbn. now rewrite Hn.
           ++ cbn [count_occ].
              destruct (string_dec (picked_up_message it) inventory_full_message) as [E|_];
                [now apply picked_up_is_not_full in E|exact Hk].
      * (* another item *)
        destruct (Z.of_nat (length (inventory (the_player s))) <? max_inventory (the_player s))
          eqn:Hroom.
        -- unfold add_to_inventory. rewrite Hroom.
           match goal with |- context [pickup_loop pos rest (S i) (rm ++ [i]) ?s2] =>
             specialize (IH (S i) (rm ++ [i]) s2) end.
           destruct IH as (Hp & Hi & Hd & Hin & Hout & msgs & Ht & Hn & Hk).
           { intros j Hj. apply in_app_or in Hj as [Hj|[<-|[]]]; [apply Hrm in Hj|]; lia. }
           cbv zeta in *. autorewrite with engine in *.
           apply Z.ltb_lt in Hroom.
           assert (Hfree : free_slots (the_player s)
                           = S (free_slots (set_inventory (inventory (the_player s) ++ [it])
                                              (the_player s)))).
           { unfold free_slots, set_inventory. cbn. rewrite length_app. cbn. lia. }
           rewrite Hfree. cbn [firstn skipn].
           split; [|split; [|split; [|split; [|split]]]].
           ++ rewrite Hp. unfold set_inventory, set_gold. cbn. now rewrite <- app_assoc.
           ++ exact Hi.
           ++ rewrite listed by (apply Hin, in_or_app; right; now left). exact Hd.
           ++ intros j Hj. apply Hin, in_or_app. now left.
           ++ intros j Hj. apply Hout in Hj as [Hj|Hj]; [|right; lia].
              apply in_app_or in Hj as [Hj|[<-|[]]]; [now left|right; lia].
           ++ exists (picked_up_message it :: msgs). split; [|split].
              ** rewrite Ht. cbn. now rewrite <- app_assoc.
              ** cbn. now rewrite Hn.
              ** cbn [count_occ].
                 destruct (string_dec (picked_up_message it) inventory_full_message)
                   as [E|_]; [now apply picked_up_is_not_full in E|exact Hk].
        -- match goal with |- context [pickup_loop pos rest (S i) rm ?s2] =>
             specialize (IH (S i) rm s2) end.
           destruct IH as (Hp & Hi & Hd & Hin & Hout & msgs & Ht & Hn & Hk).
           { intros j Hj. apply Hrm in Hj. lia. }
           cbv zeta in *. autorewrite with engine in *.
           apply Z.ltb_ge in Hroom.
           assert (Hfree : free_slots (the_player s) = 0%nat)
             by (unfold free_slots; lia).
           rewrite Hfree in *. cbn [firstn skipn] in *.
           split; [|split; [|split; [|split; [|split]]]].
           ++ exact Hp.
           ++ exact Hi.
           ++ rewrite not_listed; [now rewrite Hd|].
              intros Hj. apply Hout in Hj as [Hj|Hj]; [apply Hrm in Hj|]; lia.
           ++ exact Hin.
           ++ intros j Hj. apply Hout in Hj as [Hj|Hj]; [now left|right; lia].
           ++ exists (inventory_full_message :: msgs). split; [|split].
              ** rewrite Ht. cbn. now rewrite <- app_assoc.
              ** cbn. now rewrite Hn.
              ** cbn [count_occ length].
                 destruct (string_dec inventory_full_message inventory_full_message)
                   as [_|E]; [now rewrite Hk|now contradiction E].
    + specialize (IH (S i) rm s).
      destruct IH as (Hp & Hi & Hd & Hin & Hout & msgs & Ht & Hn & Hk).
      { intros j Hj. apply Hrm in Hj. lia. }
      cbv zeta in *.
      split; [|split; [|split; [|split; [|split]]]]; try assumption.
      * rewrite not_listed; [now rewrite Hd|].
        intros Hj. apply Hout in Hj as [Hj|Hj]; [apply Hrm in Hj|]; lia.
      * intros j Hj. apply Hout in Hj as [Hj|Hj]; [now left|right; lia].
      * now exists msgs.
Qed.

(** C5: the pickup check handles every item on the player's tile, one
    message each, in one turn.  Every coin there is removed from the floor
    and its value added to the gold; the other items there go to the
    inventory, in floor order, while it has free capacity, and leave the
    floor; each remaining one gets the inventory-full message and stays on
    the floor, the inventory no longer growing.  Items elsewhere are not
    touched. *)
Theorem pickup_rule (s : GameEngine) :
  let p := the_player s in
  let pos := position p in
  let ground := items (game_state s) in
  let coins := coins_here pos ground in
  let goods := goods_here pos ground in
  let taken := firstn (free_slots p) goods in
  let refused := skipn (free_slots p) goods in
  let s' := _check_pickup_item s in
  the_player s'
  = set_inventory (inventory p ++ taken) (set_gold (gold p + total_value coins) p)
  /\ gold (the_player s') = gold p + total_value coins
  /\ inventory (the_player s') = inventory p ++ taken
  /\ Permutation ground (coins ++ taken ++ items (game_state s'))
  /\ filter (here pos) (items (game_state s')) = refused
  /\ filter (fun it => negb (here pos it)) (items (game_state s'))
     = filter (fun it => negb (here pos it)) ground
  /\ (free_slots p = 0%nat ->
      taken = [] /\ refused = goods
      /\ length (inventory (the_player s')) = length (inventory p))
  /\ exists msgs,
       trace s' = trace s ++ PickupCheck :: map LogInfo msgs
       /\ length msgs = length (filter (here pos) ground)
       /\ count_occ string_dec msgs inventory_full_message = length refused.
Proof.
  cbv zeta. unfold _check_pickup_item. cbv zeta.
  change (the_player (emit PickupCheck s)) with (the_player s).
  change (items (game_state (emit PickupCheck s))) with (items (game_state s)).
  destruct (pickup_loop_spec (position (the_player s)) (items (game_state s))
              0%nat [] (emit PickupCheck s))
    as (Hp & Hi & Hd & _ & _ & msgs & Ht & Hn & Hk); [now intros j []|].
  cbv zeta in *.
  change (the_player (emit PickupCheck s)) with (the_player s) in *.
  change (items (game_state (emit PickupCheck s))) with (items (game_state s)) in *.
  destruct (pickup_loop _ _ _ _ _) as [rm s1]. cbn [fst snd] in *.
  change (the_player (set_items (del_slots rm (items (game_state s1))) s1))
    with (the_player s1).
  change (items (game_state (set_items (del_slots rm (items (game_state s1))) s1)))
    with (del_slots rm (items (game_state s1))).
  unfold del_slots. rewrite Hi, Hd, Hp.
  split; [reflexivity|]. split; [reflexivity|]. split; [reflexivity|].
  split; [apply left_on_floor_perm|].
  split; [apply left_on_floor_here|].
  split; [apply left_on_floor_away|].
  split.
  - intros ->. cbn [firstn skipn]. rewrite app_nil_r. now repeat split.
  - exists msgs. split; [|now split].
    change (trace (set_items (left_on_floor (position (the_player s))
                                (free_slots (the_player s)) (items (game_state s))) s1))
      with (trace s1).
    rewrite Ht. cbn. now rewrite <- app_assoc.
Qed.

(** *** The purge of dead enemies *)

Lemma set_slot_app {A : Type} (front : list A) (x y : A) (back : list A) :
  set_slot (length front) x (front ++ y :: back) = front ++ x :: back.
Proof.
  induction front as [|h t IH]; cbn; [reflexivity|now rewrite IH].
Qed.

Lemma enemy_loop_survivors (todo : list Enemy) :
  forall (i : nat) (dead : list nat) (s : GameEngine) (front : list Enemy),
  enemies (game_state s) = front ++ todo ->
  length front = i ->
  (forall j, In j dead -> (j < i)%nat) ->
  let r := enemy_loop todo i dead s in
  fst (fst r) = false ->
  exists todo',
    enemies (game_state (snd r)) = front ++ todo'
    /\ Forall2 acted (filter enemy_is_alive todo) (del_slots_from i (snd (fst r)) todo')
    /\ (forall j, In j dead -> In j (snd (fst r)))
    /\ (forall j, In j (snd (fst r)) -> In j dead \/ (i <= j)%nat).
Proof.
  induction todo as [|e rest IH]; intros i dead s front Hes Hlen Hdead; cbv zeta;
    cbn [enemy_loop filter].
  - intros _. exists []. cbn. repeat split; auto.
  - destruct (enemy_is_alive e) eqn:Halive.
    + destruct (enemy_take_turn e _ _ _ _ _) as [[[msg e'] p'] x'] eqn:Eturn.
      cbv beta iota zeta.
      match goal with |- context [if ?b then _ else _] => destruct b end;
        [discriminate|].
      match goal with |- context [enemy_loop rest (S i) dead ?s3] =>
        specialize (IH (S i) dead s3 (front ++ [e'])) end.
      cbv zeta in IH. intros Hgo.
      destruct IH as (todo' & Hes' & Hall & Hin & Hout); try assumption.
      * rewrite enemies_add_message_if. cbn. rewrite Hes, <- Hlen, set_slot_app.
        now rewrite <- app_assoc.
      * rewrite length_app. cbn. lia.
      * intros j Hj. apply Hdead in Hj. lia.
      * exists (e' :: todo'). split; [|split; [|split]].
        -- rewrite Hes'. now rewrite <- app_assoc.
        -- cbn [del_slots_from]. rewrite not_listed.
           ++ constructor; [|exact Hall].
              do 5 eexists. now rewrite Eturn.
           ++ intros Hj. apply Hout in Hj as [Hj|Hj]; [apply Hdead in Hj|]; lia.
        -- exact Hin.
        -- intros j Hj. apply Hout in Hj as [Hj|Hj]; [now left|right; lia].
    + specialize (IH (S i) (dead ++ [i]) s (front ++ [e])). cbv zeta in IH.
      intros Hgo.
      destruct IH as (todo' & Hes' & Hall & Hin & Hout); try assumption.
      * rewrite Hes. now rewrite <- app_assoc.
      * rewrite length_app. cbn. lia.
      * intros j Hj. apply in_app_or in Hj as [Hj|[<-|[]]]; [apply Hdead in Hj|]; lia.
      * exists (e :: todo'). split; [|split; [|split]].
        -- rewrite Hes'. now rewrite <- app_assoc.
        -- cbn [del_slots_from].
           rewrite listed by (apply Hin, in_or_app; right; now left). exact Hall.
        -- intros j Hj. apply Hin, in_or_app. now left.
        -- intros j Hj. apply Hout in Hj as [Hj|Hj]; [|right; lia].
           apply in_app_or in Hj as [Hj|[<-|[]]]; [now left|right; lia].
Qed.

Lemma poison_step_enemies (s : GameEngine) :
  enemies (game_state (poison_step s)) = enemies (game_state s).
Proof.
  unfold poison_step.
  destruct (update_player_poison (the_player s) (ext s)) as [[msg p'] x']. cbv zeta.
  destruct (Py.truthy msg).
  - match goal with |- context [if ?b then _ else _] => destruct b end.
    + now rewrite enemies_add_message_if.
    + now rewrite buff_step_enemies, enemies_add_message_if.
  - now rewrite buff_step_enemies.
Qed.

(** C3, amended: an enemy turn that the player survives ends with exactly
    the enemies that were alive when the pass visited them, each after its
    own turn, so every enemy that was dead at that point is gone; the use
    of a consumable from the inventory runs no purge and no enemy turn: it
    leaves the enemies collection as the item's effect returned it, dead
    enemies included, until the next such pass. *)
Theorem purge_waits_for_enemy_turn (s : GameEngine) :
  (pass_halted s = false ->
     Forall2 acted (filter enemy_is_alive (enemies (game_state s)))
                   (enemies (game_state (_enemy_turn s))))
  /\ (forall it : Item,
        is_number_key USE_ITEM = false ->
        0 <= selected_item_index s ->
        get_inventory_item (selected_item_index s) (the_player s) = Some it ->
        item_category it = "consumable" ->
        let used := use_item (the_player s) it (enemies (game_state s)) (ext s) in
        enemies (game_state (_handle_inventory_action USE_ITEM s)) = snd (fst used)
        /\ trace (_handle_inventory_action USE_ITEM s)
           = trace s ++ [UseItem; LogInfo (fst (fst (fst used))); UpdateFov]).
Proof.
  split.
  - unfold pass_halted, _enemy_turn. cbv zeta.
    set (s0 := emit EnemyTurnPass s).
    pose proof (enemy_loop_survivors (enemies (game_state s0)) 0 [] s0 [] eq_refl eq_refl)
      as Hloop.
    cbv zeta in Hloop.
    destruct (enemy_loop (enemies (game_state s0)) 0 [] s0) as [[halted dead] s1].
    cbn [fst snd] in *. intros ->.
    destruct Hloop as (todo' & Hes & Hall & _ & _); [now intros j []|reflexivity|].
    rewrite poison_step_enemies. cbn. rewrite Hes. exact Hall.
  - intros it Hkey Hsel Hget Hcat. cbv zeta.
    unfold _handle_inventory_action, use_selected. rewrite Hkey. cbv zeta.
    replace (selected_item_index s >=? 0) with true
      by (symmetry; apply Z.geb_le; lia).
    rewrite Hget, Hcat. cbn [String.eqb Ascii.eqb Bool.eqb].
    destruct (use_item _ _ _ _) as [[[msg p'] es'] x']. cbn [fst snd].
    split; [reflexivity|]. cbn. now rewrite <- !app_assoc.
Qed.

End Properties.

(** ** The properties on the small implementation *)

Lemma demo_keeps_position : @KeepsPosition Demo.types Demo.collaborators.
Proof.
  split; try reflexivity.
  intros p x. cbn. unfold Demo.tick_poison. now destruct (Demo.poison x >? 0).
Qed.



Lemma player_death_halts_the_pass_witness :
  (forall e, In e [LogInfo "bite"] -> exists m, e = LogInfo m)
  /\ pass_halted Demo.ambush = true
  /\ length (enemies (game_state (_enemy_turn Demo.ambush)))
     = length (enemies (game_state Demo.ambush)).
Proof.
  apply (player_death_halts_the_pass Demo.ambush [EnemyTurnPass] 0 [LogInfo "bite"]).
  vm_compute. reflexivity.
Defined.

(** C3 as stated fails: after the use of a fire scroll from the inventory
    the action is resolved, the player lives, the game goes on, and the
    burnt goblin is still in the enemies collection with its alive flag
    false. *)
Lemma dead_enemy_stays_after_item_use :
  exists s' e,
    dispatch USE_ITEM Demo.burning = Returned s'
    /\ running s' = true
    /\ player_is_alive (the_player s') = true
    /\ In e (enemies (game_state s'))
    /\ enemy_is_alive e = false.
Proof.
  eexists. exists (Demo.goblin 2 2 0 3).
  split; [vm_compute; reflexivity|].
  repeat split. now left.
Qed.

Lemma purge_waits_for_enemy_turn_witness :
  Forall2 acted (filter enemy_is_alive (enemies (game_state Demo.burning)))
                (enemies (game_state (_enemy_turn Demo.burning)))
  /\ enemies (game_state (_handle_inventory_action USE_ITEM Demo.burning))
     = [Demo.goblin 2 2 0 3].
Proof.
  destruct (purge_waits_for_enemy_turn Demo.burning) as [Hpass Huse].
  split.
  - apply Hpass. vm_compute. reflexivity.
  - apply (Huse Demo.scroll); [reflexivity|discriminate|reflexivity|reflexivity].
Defined.

Lemma blocked_move_changes_nothing_witness :
  _handle_game_action MOVE_RIGHT Demo.cornered = Returned Demo.cornered.
Proof.
  apply (blocked_move_changes_nothing MOVE_RIGHT Demo.cornered "#").
  - reflexivity.
  - constructor; [|constructor]. intros (_ & Hx & _). discriminate Hx.
  - reflexivity.
  - reflexivity.
  - discriminate.
  - discriminate.
Defined.

Lemma pickup_rule_witness :
  length (inventory (the_player (_check_pickup_item Demo.loaded))) = 2%nat
  /\ gold (the_player (_check_pickup_item Demo.loaded)) = 10
  /\ filter (here (mkPosition 1 0)) (items (game_state (_check_pickup_item Demo.loaded)))
     = [Demo.sword 1 0].
Proof.
  pose proof (pickup_rule Demo.loaded) as H. cbv zeta in H.
  destruct H as (_ & Hgold & _ & _ & Hleft & _ & Hfull & _).
  split; [apply Hfull; reflexivity|]. split; [exact Hgold|exact Hleft].
Defined.

Lemma descend_wins_or_generates_witness :
  (exists s', _go_downstairs Demo.last_floor = Returned s'
     /\ running s' = false
     /\ game_state s' = game_state Demo.last_floor
     /\ trace s' = trace Demo.last_floor
                   ++ [GoDownstairs; RenderGameOver true; WaitForKey; LogInfo "玩家胜利"])
  /\ current_level (game_state (final (_go_downstairs Demo.loaded))) = 2
  /\ game_map (game_state (final (_go_downstairs Demo.loaded))) = Demo.room3
  /\ position (player (game_state (final (_go_downstairs Demo.loaded)))) = mkPosition 0 0
  /\ inventory (player (game_state (final (_go_downstairs Demo.loaded))))
     = [Demo.sword 9 9; Demo.sword 9 9].
Proof.
  split.
  - apply (proj1 (descend_wins_or_generates Demo.last_floor)). reflexivity.
  - assert (Hlow : current_level (game_state Demo.loaded) < total_levels) by reflexivity.
    pose proof (proj2 (descend_wins_or_generates Demo.loaded) Hlow) as H.
    cbv zeta in H. destruct H as (_ & Hl & Hm & _ & _ & _ & _ & _ & Hp & _).
    split; [exact Hl|]. split; [exact Hm|]. rewrite Hp. now split.
Defined.

(** C7 as stated fails: a poison tick that returns no message kills a
    player who was alive, and the buff tick still runs after it. *)
Lemma silent_poison_death_reaches_buff_tick :
  player_is_alive (the_player Demo.silent_poison) = true
  /\ exists pre m post,
       trace (_enemy_turn Demo.silent_poison)
       = trace Demo.silent_poison ++ pre ++ PoisonTick m false :: post
       /\ In BuffTick post.
Proof.
  split; [reflexivity|].
  exists [EnemyTurnPass; PurgeDead []], None, [BuffTick].
  split; [vm_compute; reflexivity|now left].
Qed.

Lemma reported_poison_death_skips_buff_tick_witness :
  [LogInfo "poison"] = log_of (Some "poison") /\ ~ In BuffTick [LogInfo "poison"].
Proof.
  apply (reported_poison_death_skips_buff_tick Demo.loud_poison
           [EnemyTurnPass; PurgeDead []] (Some "poison") [LogInfo "poison"]).
  - vm_compute. reflexivity.
  - reflexivity.
Defined.

Lemma buff_expires_on_last_tick_witness :
  (temp_atk_duration (the_player (buff_step Demo.buffed)) = Some 0
   /\ atk (the_player (buff_step Demo.buffed)) = 3
   /\ trace (buff_step Demo.buffed) = [BuffTick; LogInfo expiry_message])
  /\ game_state (buff_step Demo.plain) = game_state Demo.plain.
Proof.
  split.
  - destruct (proj1 (buff_expires_on_last_tick Demo.buffed) eq_refl)
      as (_ & _ & Hd & Ha & Ht & _).
    split; [exact Hd|]. split; [exact Ha|exact Ht].
  - apply (proj2 (buff_expires_on_last_tick Demo.plain)). now right.
Defined.

Lemma regeneration_keeps_player_replaces_floor_witness :
  position (player (game_state (final (_generate_level 2 Demo.loaded)))) = mkPosition 0 0
  /\ inventory (player (game_state (final (_generate_level 2 Demo.loaded))))
     = [Demo.sword 9 9; Demo.sword 9 9]
  /\ current_level (game_state (final (_generate_level 2 Demo.loaded))) = 2.
Proof.
  pose proof (regeneration_keeps_player_replaces_floor 2 Demo.loaded) as H.
  cbv zeta in H.
  destruct H as (_ & _ & _ & Hinv & _ & _ & _ & Hpos & Hlevel & _).
  split; [exact Hpos|]. split; [exact Hinv|exact Hlevel].
Defined.

Lemma blocked_move_off_grid_raises_witness :
  _handle_game_action MOVE_RIGHT Demo.edge = Raised IndexError Demo.edge.
Proof.
  apply (blocked_move_off_grid_raises MOVE_RIGHT Demo.edge).
  - reflexivity.
  - constructor.
  - reflexivity.
  - reflexivity.
Defined.

(** ** Further properties of the engine *)

Section Further.

Context {Ty : Opaque} {C : Collaborators Ty}.

(** *** The message log *)

(** X1: with a positive cap, [add_message] leaves at most [max_messages]
    entries in the log, whatever its length before, and the new message is
    the last one. *)
Theorem message_log_stays_capped (m : string) (s : GameEngine) :
  0 < max_messages ->
  Z.of_nat (length (messages (game_state (add_message m s)))) <= max_messages
  /\ exists front, messages (game_state (add_message m s)) = front ++ [m].
Proof.
  intros Hcap. unfold add_message. cbv zeta.
  cbn [game_state messages emit on_state gs_set_messages].
  set (old := messages (game_state s)).
  assert (Hlen : length (old ++ [m]) = S (length old))
    by (rewrite length_app; cbn; lia).
  destruct (Z.of_nat (length (old ++ [m])) >? max_messages) eqn:Hover.
  - apply Z.gtb_lt in Hover. unfold Py.slice_from.
    replace (- max_messages <? 0) with true by (symmetry; apply Z.ltb_lt; lia).
    set (k := Z.to_nat (Z.max 0 (Z.of_nat (length (old ++ [m])) + - max_messages))).
    assert (Hk : (k <= length old)%nat) by (subst k; rewrite Hlen; lia).
    split.
    + rewrite length_skipn. subst k. rewrite Hlen in *. lia.
    + exists (skipn k old). rewrite skipn_app.
      replace (k - length old)%nat with 0%nat by lia. reflexivity.
  - split.
    + destruct (Z.gtb_spec (Z.of_nat (length (old ++ [m]))) max_messages);
        [discriminate|lia].
    + now exists old.
Qed.

(** X2: with the cap configured as 0 the log is never trimmed: the slice
    [messages[-0:]] is the whole list, so every message stays. *)
Theorem message_log_untrimmed_at_zero (m : string) (s : GameEngine) :
  max_messages = 0 ->
  messages (game_state (add_message m s)) = messages (game_state s) ++ [m].
Proof.
  intros Hcap. unfold add_message. cbv zeta.
  cbn [game_state messages emit on_state gs_set_messages].
  rewrite Hcap. destruct (_ >? 0); reflexivity.
Qed.

(** *** The countdown of the attack buff *)

Lemma ticker_counts_down (p : Player) (z : Z) :
  temp_atk_duration p = Some z -> 1 < z ->
  _update_temporary_effects p = (None, set_temp_atk_duration (Some (z - 1)) p).
Proof.
  intros H Hz. unfold _update_temporary_effects. rewrite H.
  replace (z >? 0) with true by (symmetry; apply Z.gtb_lt; lia).
  replace (z - 1 =? 0) with false by (symmetry; apply Z.eqb_neq; lia).
  reflexivity.
Qed.

Lemma ticker_expires (p : Player) :
  temp_atk_duration p = Some 1 ->
  _update_temporary_effects p
  = (Some expiry_message,
     set_atk (Z.max 3 (atk p - 5)) (set_temp_atk_duration (Some 0) p)).
Proof.
  intros H. unfold _update_temporary_effects. now rewrite H.
Qed.

Lemma ticker_idle (p : Player) (z : Z) :
  temp_atk_duration p = Some z -> z <= 0 -> _update_temporary_effects p = (None, p).
Proof.
  intros H Hz. unfold _update_temporary_effects. rewrite H.
  now replace (z >? 0) with false by (symmetry; rewrite Z.gtb_ltb; apply Z.ltb_ge; lia).
Qed.

Lemma tick_times_early (k : nat) : forall (d : nat) (p : Player),
  temp_atk_duration p = Some (Z.of_nat (S d)) -> (k <= d)%nat ->
  tick_times k p = set_temp_atk_duration (Some (Z.of_nat (S d - k))) p.
Proof.
  induction k as [|k IH]; intros d p H Hk; cbn [tick_times].
  - rewrite Nat.sub_0_r, <- H. now destruct p.
  - destruct d as [|d]; [lia|].
    rewrite (ticker_counts_down p _ H) by lia. cbn [snd].
    replace (Z.of_nat (S (S d)) - 1) with (Z.of_nat (S d)) by lia.
    rewrite (IH d); [reflexivity|reflexivity|lia].
Qed.

Lemma tick_times_idle (j : nat) (p : Player) :
  temp_atk_duration p = Some 0 -> tick_times j p = p.
Proof.
  intros H. induction j as [|j IH]; cbn [tick_times]; [reflexivity|].
  rewrite (ticker_idle p 0 H) by lia. exact IH.
Qed.

(** X3: a buff of [d + 1] remaining ticks lasts exactly that many
    invocations of the ticker: the first [d] only count down, with the
    attack untouched and no message; the next one returns the expiry
    message and sets the attack to max(3, attack - 5); every later
    invocation changes nothing. *)
Theorem buff_lasts_its_duration (d : nat) (p : Player) :
  temp_atk_duration p = Some (Z.of_nat (S d)) ->
  (forall k, (k <= d)%nat ->
     atk (tick_times k p) = atk p
     /\ temp_atk_duration (tick_times k p) = Some (Z.of_nat (S d - k))
     /\ fst (_update_temporary_effects (tick_times k p))
        = if (k =? d)%nat then Some expiry_message else None)
  /\ tick_times (S d) p
     = set_atk (Z.max 3 (atk p - 5)) (set_temp_atk_duration (Some 0) p)
  /\ forall j, tick_times (S d + j) p = tick_times (S d) p.
Proof.
  intros H.
  assert (Hlast : tick_times (S d) p
                  = set_atk (Z.max 3 (atk p - 5)) (set_temp_atk_duration (Some 0) p)).
  { replace (S d) with (d + 1)%nat by lia.
    assert (Hsplit : forall a b q, tick_times (a + b) q = tick_times b (tick_times a q)).
    { induction a as [|a IHa]; intros b q; cbn [tick_times Nat.add]; auto. }
    rewrite Hsplit, (tick_times_early d d p H) by lia.
    replace (S d - d)%nat with 1%nat by lia. cbn [tick_times].
    rewrite ticker_expires by reflexivity. reflexivity. }
  split; [|split; [exact Hlast|]].
  - intros k Hk. rewrite (tick_times_early k d p H Hk).
    split; [reflexivity|]. split; [reflexivity|].
    destruct (Nat.eqb_spec k d) as [->|Hne].
    + replace (S d - d)%nat with 1%nat by lia. now rewrite ticker_expires.
    + erewrite ticker_counts_down; [reflexivity|reflexivity|lia].
  - intros j.
    assert (Hsplit : forall a b q, tick_times (a + b) q = tick_times b (tick_times a q)).
    { induction a as [|a IHa]; intros b q; cbn [tick_times Nat.add]; auto. }
    rewrite Hsplit, Hlast. now apply tick_times_idle.
Qed.

(** *** Stairs up *)

(** X4: going upstairs on floor 1 (or lower) generates nothing: it only
    logs the top-floor message; from a floor above 1 it is the generation
    of the floor below, which becomes the current one. *)
Theorem ascend_stops_at_top_floor (s : GameEngine) :
  (current_level (game_state s) <= 1 ->
     _go_upstairs s = Returned (add_message top_floor_message (emit GoUpstairs s))
     /\ same_floor (game_state (final (_go_upstairs s))) (game_state s)
     /\ trace (final (_go_upstairs s))
        = trace s ++ [GoUpstairs; LogInfo top_floor_message])
  /\ (1 < current_level (game_state s) ->
     _go_upstairs s = _generate_level (current_level (game_state s) - 1) (emit GoUpstairs s)
     /\ current_level (game_state (final (_go_upstairs s)))
        = current_level (game_state s) - 1).
Proof.
  unfold _go_upstairs. cbv zeta.
  change (current_level (game_state (emit GoUpstairs s)))
    with (current_level (game_state s)).
  split; intros Hl.
  - replace (current_level (game_state s) >? 1) with false
      by (symmetry; rewrite Z.gtb_ltb; apply Z.ltb_ge; lia).
    split; [reflexivity|]. split; [reflexivity|].
    cbn. now rewrite <- app_assoc.
  - replace (current_level (game_state s) >? 1) with true
      by (symmetry; apply Z.gtb_lt; lia).
    split; [reflexivity|].
    now destruct (generate_level_floor (current_level (game_state s) - 1)
                    (emit GoUpstairs s)) as (_ & Hlevel & _).
Qed.

(** *** Target lookup *)

Lemma first_enemy_at_first (x y : Z) (l : list Enemy) : forall (i k : nat) (e : Enemy),
  first_enemy_at x y l i = Some (k, e) ->
  forall j e', (j < k - i)%nat -> nth_error l j = Some e' ->
               ~ (enemy_is_alive e' = true /\ stands_on x y e').
Proof.
  induction l as [|h l IH]; intros i k e; cbn [first_enemy_at]; [discriminate|].
  destruct (enemy_is_alive h && (pos_x (enemy_position h) =? x)
            && (pos_y (enemy_position h) =? y)) eqn:Hh.
  - intros [= <- <-] j e' Hj. lia.
  - intros Hfind j e' Hj Hnth.
    destruct (first_enemy_at_some _ _ _ _ _ _ Hfind) as (Hle & _).
    destruct j as [|j]; cbn in Hnth.
    + injection Hnth as <-. intros (Ha & Hx & Hy).
      now rewrite Ha, Hx, Hy, !Z.eqb_refl in Hh.
    + apply (IH (S i) k e Hfind j e'); [lia|exact Hnth].
Qed.

Lemma first_enemy_at_free (x y : Z) (l : list Enemy) (i : nat) :
  first_enemy_at x y l i = None ->
  Forall (fun e => ~ (enemy_is_alive e = true /\ stands_on x y e)) l.
Proof.
  revert i. induction l as [|h l IH]; intros i; cbn [first_enemy_at]; [constructor|].
  destruct (enemy_is_alive h && (pos_x (enemy_position h) =? x)
            && (pos_y (enemy_position h) =? y)) eqn:Hh; [discriminate|].
  intros Hnone. constructor; [|now apply (IH (S i))].
  intros (Ha & Hx & Hy). now rewrite Ha, Hx, Hy, !Z.eqb_refl in Hh.
Qed.

(** X5: the target lookup finds nothing exactly when no living enemy stands
    on the tile, so a dead enemy still in the collection is never a target;
    what it finds is the living enemy on the tile with the lowest slot. *)
Theorem target_lookup_first_living (x y : Z) (s : GameEngine) :
  (_get_enemy_at x y s = None <-> enemy_free x y s)
  /\ forall i e, _get_enemy_at x y s = Some (i, e) ->
       nth_error (enemies (game_state s)) i = Some e
       /\ enemy_is_alive e = true /\ stands_on x y e
       /\ forall j e', (j < i)%nat -> nth_error (enemies (game_state s)) j = Some e' ->
                       ~ (enemy_is_alive e' = true /\ stands_on x y e').
Proof.
  unfold _get_enemy_at, enemy_free. split; [split|].
  - apply first_enemy_at_free.
  - apply first_enemy_at_none.
  - intros i e Hfind.
    destruct (first_enemy_at_some _ _ _ _ _ _ Hfind) as (_ & Hnth & Ha & Hon).
    rewrite Nat.sub_0_r in Hnth. repeat (split; [assumption|]).
    intros j e' Hj. apply (first_enemy_at_first _ _ _ _ _ _ Hfind). lia.
Qed.

(** *** What an enemy turn leaves alone *)

Lemma fixtures_add_message_if (m : option string) (s : GameEngine) :
  fixtures (add_message_if m s) = fixtures s
  /\ items (game_state (add_message_if m s)) = items (game_state s)
  /\ ext (add_message_if m s) = ext s.
Proof.
  unfold add_message_if.
  destruct m as [text|]; [destruct (Py.truthy (Some text))|]; now repeat split.
Qed.

Lemma enemy_loop_fixtures (todo : list Enemy) :
  forall (i : nat) (dead : list nat) (s : GameEngine),
  fixtures (snd (enemy_loop todo i dead s)) = fixtures s
  /\ items (game_state (snd (enemy_loop todo i dead s))) = items (game_state s).
Proof.
  induction todo as [|e rest IH]; intros i dead s; cbn [enemy_loop]; [now split|].
  destruct (enemy_is_alive e); [|apply IH].
  destruct (enemy_take_turn e _ _ _ _ _) as [[[msg e'] p'] x'].
  cbv beta iota zeta.
  match goal with |- context [add_message_if msg ?s2] =>
    destruct (fixtures_add_message_if msg s2) as (Hf & Hi & _) end.
  match goal with |- context [if ?b then _ else _] => destruct b end; cbn [snd].
  - now rewrite Hf, Hi.
  - destruct (IH (S i) dead
                (add_message_if msg
                   (emit (EnemyActed i (player_is_alive p'))
                      (set_ext x' (set_player p'
                         (set_enemies (set_slot i e' (enemies (game_state s))) s))))))
      as [-> ->].
    now rewrite Hf, Hi.
Qed.

Lemma buff_step_fixtures (s : GameEngine) :
  fixtures (buff_step s) = fixtures s
  /\ items (game_state (buff_step s)) = items (game_state s).
Proof.
  unfold buff_step. destruct (_update_temporary_effects (the_player s)) as [msg p'].
  match goal with |- context [add_message_if msg ?s2] =>
    destruct (fixtures_add_message_if msg s2) as (-> & -> & _) end.
  now split.
Qed.

Lemma poison_step_fixtures (s : GameEngine) :
  fixtures (poison_step s) = fixtures s
  /\ items (game_state (poison_step s)) = items (game_state s).
Proof.
  unfold poison_step.
  destruct (update_player_poison (the_player s) (ext s)) as [[msg p'] x']. cbv zeta.
  match goal with |- context [add_message_if msg ?s2] =>
    destruct (fixtures_add_message_if msg s2) as (Hf & Hi & _) end.
  destruct (Py.truthy msg).
  - match goal with |- context [if ?b then _ else _] => destruct b end.
    + now rewrite Hf, Hi.
    + match goal with |- context [buff_step ?s2] =>
        destruct (buff_step_fixtures s2) as [-> ->] end.
      now rewrite Hf, Hi.
  - match goal with |- context [buff_step ?s2] =>
      destruct (buff_step_fixtures s2) as [-> ->] end.
    now split.
Qed.

Lemma del_slots_from_length {A : Type} (dead : list nat) (l : list A) : forall i : nat,
  (length (del_slots_from i dead l) <= length l)%nat.
Proof.
  induction l as [|h t IH]; intros i; cbn [del_slots_from]; [reflexivity|].
  specialize (IH (S i)). destruct (existsb _ _); cbn; lia.
Qed.

(** X6: an enemy turn changes nothing but the player, the enemies, the
    message log and the collaborators' state: floor geometry, items, traps,
    masks and the engine's control flags are as before, and the enemies
    collection never grows. *)
Theorem enemy_turn_leaves_the_floor (s : GameEngine) :
  fixtures (_enemy_turn s) = fixtures s
  /\ items (game_state (_enemy_turn s)) = items (game_state s)
  /\ (length (enemies (game_state (_enemy_turn s)))
      <= length (enemies (game_state s)))%nat.
Proof.
  unfold _enemy_turn. cbv zeta.
  set (s0 := emit EnemyTurnPass s).
  destruct (enemy_loop_fixtures (enemies (game_state s0)) 0 [] s0) as [Hf Hi].
  pose proof (enemy_loop_halted_length (enemies (game_state s0)) 0 [] s0) as Hlen.
  destruct (enemy_loop (enemies (game_state s0)) 0 [] s0) as [[halted dead] s1].
  cbn [fst snd] in *. destruct halted.
  - rewrite Hf, Hi, Hlen. repeat split. reflexivity.
  - destruct (poison_step_fixtures (purge_step dead s1)) as [-> ->].
    rewrite poison_step_enemies.
    change (fixtures (purge_step dead s1)) with (fixtures s1).
    change (items (game_state (purge_step dead s1))) with (items (game_state s1)).
    rewrite Hf, Hi. repeat split.
    change (enemies (game_state (purge_step dead s1)))
      with (del_slots_from 0 dead (enemies (game_state s1))).
    etransitivity; [apply del_slots_from_length|]. now rewrite Hlen.
Qed.

(** *** What a pickup leaves alone *)

Lemma pickup_loop_fixtures (pos : Position) (todo : list Item) :
  forall (i : nat) (rm : list nat) (s : GameEngine),
  fixtures (snd (pickup_loop pos todo i rm s)) = fixtures s
  /\ enemies (game_state (snd (pickup_loop pos todo i rm s))) = enemies (game_state s)
  /\ ext (snd (pickup_loop pos todo i rm s)) = ext s.
Proof.
  induction todo as [|it rest IH]; intros i rm s; cbn [pickup_loop]; [now repeat split|].
  destruct (_ && _); [|apply IH].
  destruct (item_category it =? "currency")%string.
  - match goal with |- context [pickup_loop pos rest ?j ?r ?s2] =>
      destruct (IH j r s2) as (-> & -> & ->) end.
    now repeat split.
  - destruct (Z.of_nat (length (inventory (the_player s))) <? max_inventory (the_player s)).
    + destruct (add_to_inventory it (the_player s)) as [[|] p'];
        match goal with |- context [pickup_loop pos rest ?j ?r ?s2] =>
          destruct (IH j r s2) as (-> & -> & ->) end;
        now repeat split.
    + match goal with |- context [pickup_loop pos rest ?j ?r ?s2] =>
        destruct (IH j r s2) as (-> & -> & ->) end.
      now repeat split.
Qed.

Lemma left_on_floor_length (pos : Position) (l : list Item) : forall free : nat,
  (length (left_on_floor pos free l) <= length l)%nat.
Proof.
  induction l as [|it rest IH]; intros free; cbn [left_on_floor]; [reflexivity|].
  pose proof (IH free). pose proof (IH (pred free)). pose proof (IH 0%nat).
  destruct (here pos it); [|cbn; lia].
  destruct (is_currency it); [cbn; lia|].
  destruct free; cbn in *; lia.
Qed.

(** X7: a pickup keeps the inventory within its capacity when it was
    within it before, never adds an item to the floor, and changes nothing
    but the player's gold and inventory, the floor's items and the message
    log: position, capacity, enemies, geometry, traps, masks and control
    flags are as before. *)
Theorem pickup_respects_capacity (s : GameEngine) :
  (Z.of_nat (length (inventory (the_player s))) <= max_inventory (the_player s) ->
   Z.of_nat (length (inventory (the_player (_check_pickup_item s))))
   <= max_inventory (the_player (_check_pickup_item s)))
  /\ (length (items (game_state (_check_pickup_item s)))
      <= length (items (game_state s)))%nat
  /\ position (the_player (_check_pickup_item s)) = position (the_player s)
  /\ max_inventory (the_player (_check_pickup_item s)) = max_inventory (the_player s)
  /\ enemies (game_state (_check_pickup_item s)) = enemies (game_state s)
  /\ fixtures (_check_pickup_item s) = fixtures s.
Proof.
  unfold _check_pickup_item. cbv zeta.
  change (the_player (emit PickupCheck s)) with (the_player s).
  change (items (game_state (emit PickupCheck s))) with (items (game_state s)).
  destruct (pickup_loop_spec (position (the_player s)) (items (game_state s))
              0%nat [] (emit PickupCheck s))
    as (Hp & Hi & Hd & _); [now intros j []|].
  destruct (pickup_loop_fixtures (position (the_player s)) (items (game_state s))
              0%nat [] (emit PickupCheck s)) as (Hf & He & _).
  cbv zeta in *.
  change (the_player (emit PickupCheck s)) with (the_player s) in *.
  change (items (game_state (emit PickupCheck s))) with (items (game_state s)) in *.
  destruct (pickup_loop _ _ _ _ _) as [rm s1]. cbn [fst snd] in *.
  change (the_player (set_items (del_slots rm (items (game_state s1))) s1))
    with (the_player s1).
  change (items (game_state (set_items (del_slots rm (items (game_state s1))) s1)))
    with (del_slots rm (items (game_state s1))).
  change (enemies (game_state (set_items (del_slots rm (items (game_state s1))) s1)))
    with (enemies (game_state s1)).
  change (fixtures (set_items (del_slots rm (items (game_state s1))) s1))
    with (fixtures s1).
  unfold del_slots. rewrite Hi, Hd, Hp, He, Hf.
  split; [|split; [apply left_on_floor_length|now repeat split]].
  intros Hcap. cbn [inventory max_inventory set_inventory set_gold].
  rewrite length_app.
  pose proof (firstn_le_length (free_slots (the_player s))
                (goods_here (position (the_player s)) (items (game_state s)))) as Hle.
  unfold free_slots in *. lia.
Qed.

(** *** Steps onto a walkable tile *)

Lemma trap_step_effect (x y : Z) (s : GameEngine) :
  exists d,
    trace (fst (trap_step x y s)) = trace s ++ TrapCheck x y :: d
    /\ forallb trap_event d = true
    /\ items (game_state (fst (trap_step x y s))) = items (game_state s)
    /\ controls (fst (trap_step x y s)) = controls s
    /\ (snd (trap_step x y s) = true ->
        player_is_alive (the_player (fst (trap_step x y s))) = false).
Proof.
  unfold trap_step.
  destruct (check_trap_at x y (the_player s) (traps (game_state s)) (ext s))
    as [[[msg p'] tr'] x'].
  destruct (Py.truthy msg) eqn:Hm.
  - destruct (remove_triggered_traps _ _) as [tr'' x''] eqn:Hr.
    cbn [fst snd].
    exists (log_of msg ++ [RemoveTriggeredTraps]). split; [|split; [|split; [|split]]].
    + cbn -[log_of add_message_if]. rewrite trace_add_message_if. cbn -[log_of].
      now rewrite <- !app_assoc.
    + rewrite forallb_app. cbn. rewrite andb_true_r.
      apply forallb_weaken with (f := is_log); [now intros []|apply log_of_is_log].
    + cbn -[add_message_if].
      now destruct (fixtures_add_message_if msg
             (emit (TrapCheck x y) (set_ext x' (set_traps tr' (set_player p' s)))))
        as (_ & -> & _).
    + cbn -[add_message_if].
      match goal with |- context [add_message_if msg ?s2] =>
        pose proof (f_equal (fun f => snd f)
                      (proj1 (fixtures_add_message_if msg s2))) as Hc end.
      cbn -[add_message_if] in Hc. unfold controls. cbn -[add_message_if].
      exact Hc.
    + intros Hdead. now apply negb_true_iff in Hdead.
  - cbn [fst snd]. exists []. repeat split. discriminate.
Qed.

Lemma check_pickup_item_trace (s : GameEngine) :
  exists msgs, trace (_check_pickup_item s) = trace s ++ PickupCheck :: map LogInfo msgs.
Proof.
  unfold _check_pickup_item. cbv zeta.
  destruct (pickup_loop_spec (position (the_player (emit PickupCheck s)))
              (items (game_state (emit PickupCheck s))) 0%nat [] (emit PickupCheck s))
    as (_ & _ & _ & _ & _ & msgs & Ht & _); [now intros j []|].
  cbv zeta in Ht. destruct (pickup_loop _ _ _ _ _) as [rm s1]. cbn [fst snd] in *.
  exists msgs.
  change (trace (set_items (del_slots rm (items (game_state s1))) s1)) with (trace s1).
  rewrite Ht. cbn. now rewrite <- app_assoc.
Qed.

Lemma walk_unfolds (a : Action) (s : GameEngine) :
  is_move a = true ->
  enemy_free (fst (move_target a s)) (snd (move_target a s)) s ->
  is_walkable (game_map (game_state s))
              (fst (move_target a s)) (snd (move_target a s)) = true ->
  _handle_game_action a s
  = let after_trap :=
      fst (trap_step (fst (move_target a s)) (snd (move_target a s)) (stepped a s)) in
    if trap_kills a s then Returned (_game_over after_trap)
    else stairs_or (fun s => Returned (_update_fov (_enemy_turn s)))
           (tile_at (game_map (game_state s))
                    (fst (move_target a s)) (snd (move_target a s)))
           (_check_pickup_item after_trap).
Proof.
  intros Hmove Hfree Hwalk.
  unfold _handle_game_action, trap_kills, stepped. rewrite Hmove, move_player_target.
  destruct (move_target a s) as [nx ny]; cbn [fst snd] in *.
  unfold _get_enemy_at. rewrite (first_enemy_at_none _ _ _ _ Hfree).
  cbv zeta. rewrite Hwalk.
  now destruct (trap_step nx ny _) as [s2 died].
Qed.

(** X8: a step onto a free walkable tile that is no staircase, with a trap
    check that does not kill, returns normally after one full turn in a
    fixed order: the move, the trap check with its messages and purge, the
    pickup check with its messages, then one enemy turn and, last, the
    visibility update, which leaves the visible mask computed for the
    player's final position. *)
Theorem step_runs_one_full_turn (a : Action) (s : GameEngine) (t : ascii) :
  is_move a = true ->
  enemy_free (fst (move_target a s)) (snd (move_target a s)) s ->
  is_walkable (game_map (game_state s))
              (fst (move_target a s)) (snd (move_target a s)) = true ->
  trap_kills a s = false ->
  tile_at (game_map (game_state s))
          (fst (move_target a s)) (snd (move_target a s)) = Some t ->
  t <> ">"%char -> t <> "<"%char ->
  exists s' d_trap msgs d_turn,
    _handle_game_action a s = Returned s'
    /\ s' = _update_fov
              (_enemy_turn
                 (_check_pickup_item
                    (fst (trap_step (fst (move_target a s)) (snd (move_target a s))
                            (stepped a s)))))
    /\ trace s' = trace s
         ++ MoveTo (fst (move_target a s)) (snd (move_target a s))
         :: TrapCheck (fst (move_target a s)) (snd (move_target a s))
         :: d_trap ++ PickupCheck :: map LogInfo msgs
         ++ EnemyTurnPass :: d_turn ++ [UpdateFov]
    /\ forallb trap_event d_trap = true
    /\ forallb pass_event d_turn = true
    /\ visible (game_state s')
       = compute_visible (game_map (game_state s')) (position (the_player s'))
           (width (game_state s')) (height (game_state s'))
    /\ exists before, explored (game_state s')
                      = update_explored (visible (game_state s')) before.
Proof.
  intros Hmove Hfree Hwalk Hsafe Htile Hdown Hup.
  rewrite (walk_unfolds a s Hmove Hfree Hwalk). cbv zeta. rewrite Hsafe, Htile.
  unfold stairs_or.
  destruct (Ascii.eqb_spec t ">") as [E|_]; [contradiction|].
  destruct (Ascii.eqb_spec t "<") as [E|_]; [contradiction|].
  destruct (trap_step_effect (fst (move_target a s)) (snd (move_target a s)) (stepped a s))
    as (d_trap & Ht & Hd & _).
  set (after_trap := fst (trap_step _ _ (stepped a s))) in *.
  destruct (check_pickup_item_trace after_trap) as (msgs & Hp).
  destruct (enemy_turn_then_fov (_check_pickup_item after_trap)) as (d_turn & He & Hturn).
  exists (_update_fov (_enemy_turn (_check_pickup_item after_trap))), d_trap, msgs, d_turn.
  split; [reflexivity|]. split; [reflexivity|].
  split; [|split; [exact Hd|split; [exact Hturn|split; [reflexivity|]]]].
  - rewrite He, Hp, Ht. unfold stepped. cbn [trace emit set_player on_state].
    rewrite <- !app_assoc. reflexivity.
  - now eexists.
Qed.

(** X9: when the trap check after a step reports an effect that leaves the
    player dead, the action ends in game over at once: the loop flag is
    cleared and the defeat screen rendered, and neither the pickup check
    nor a staircase nor an enemy turn follows; the items on the floor are
    untouched. *)
Theorem lethal_trap_ends_the_action (a : Action) (s : GameEngine) :
  is_move a = true ->
  enemy_free (fst (move_target a s)) (snd (move_target a s)) s ->
  is_walkable (game_map (game_state s))
              (fst (move_target a s)) (snd (move_target a s)) = true ->
  trap_kills a s = true ->
  exists s' d_trap,
    _handle_game_action a s = Returned s'
    /\ running s' = false
    /\ player_is_alive (the_player s') = false
    /\ items (game_state s') = items (game_state s)
    /\ trace s' = trace s
         ++ MoveTo (fst (move_target a s)) (snd (move_target a s))
         :: TrapCheck (fst (move_target a s)) (snd (move_target a s))
         :: d_trap ++ [RenderGameOver false; WaitForKey; LogInfo "玩家死亡"]
    /\ forallb trap_event d_trap = true.
Proof.
  intros Hmove Hfree Hwalk Hdead.
  rewrite (walk_unfolds a s Hmove Hfree Hwalk). cbv zeta. rewrite Hdead.
  destruct (trap_step_effect (fst (move_target a s)) (snd (move_target a s)) (stepped a s))
    as (d_trap & Ht & Hd & Hi & _ & Hkill).
  unfold trap_kills in Hdead. specialize (Hkill Hdead).
  set (after_trap := fst (trap_step _ _ (stepped a s))) in *.
  exists (_game_over after_trap), d_trap.
  split; [reflexivity|]. split; [reflexivity|]. split; [exact Hkill|].
  split; [exact Hi|]. split; [|exact Hd].
  cbn [trace _game_over emit set_running]. rewrite Ht. unfold stepped.
  cbn [trace emit set_player on_state]. rewrite <- !app_assoc. reflexivity.
Qed.

(** *** Events of a level generation *)

Lemma spawn_enemies_logs (level : Z) (s : GameEngine) :
  exists d, trace (final (_spawn_enemies level s)) = trace s ++ d
            /\ forallb is_log d = true.
Proof.
  unfold _spawn_enemies. cbv zeta. destruct (level =? total_levels).
  - destruct (Py.getitem _ _) as [boss_room|].
    + destruct (get_random_floor_position _ _) as [boss_pos x']. cbn [final].
      now exists [LogInfo boss_warning].
    + cbn [final]. exists []. now rewrite app_nil_r.
  - cbn [final].
    match goal with |- context [spawn_loop ?n ?av s] =>
      destruct (spawn_loop_stable n av s) as [_ ->] end.
    exists []. now rewrite app_nil_r.
Qed.

Lemma generate_level_events (level : Z) (s : GameEngine) :
  exists d, trace (final (_generate_level level s)) = trace s ++ d
            /\ forallb generation_event d = true.
Proof.
  unfold _generate_level. cbv zeta.
  destruct (generate level _) as [d x'].
  match goal with |- context [_spawn_enemies level ?s6] => set (start := s6) end.
  assert (Htrace : trace start
                   = trace s ++ [LogInfo ("生成第" ++ Py.str level ++ "层地牢")%string;
                                 Generate level;
                                 MoveTo (pos_x (dd_player_start d))
                                        (pos_y (dd_player_start d))]).
  { subst start. cbn [trace set_traps set_items set_enemies set_player on_state emit set_ext].
    now rewrite <- !app_assoc. }
  clearbody start.
  destruct (spawn_enemies_logs level start) as (de & Hde & Hlog).
  assert (Hgen : forallb generation_event de = true)
    by (apply forallb_weaken with (f := is_log); [now intros []|exact Hlog]).
  destruct (_spawn_enemies level start) as [s7|e s7]; cbn [final] in *.
  - destruct (spawn_items_stable level s7) as [_ Htr].
    destruct (generate_traps _ _ _ _ _ _) as [tr x'']. cbn [final].
    exists ([LogInfo ("生成第" ++ Py.str level ++ "层地牢")%string; Generate level;
             MoveTo (pos_x (dd_player_start d)) (pos_y (dd_player_start d))]
            ++ de ++ [GenerateTraps level; UpdateFov;
                      LogInfo ("进入第" ++ Py.str level ++ "层地牢")%string]).
    split.
    + cbn [trace add_message _update_fov set_traps on_state emit set_ext].
      rewrite Htr, Hde, Htrace. now rewrite <- !app_assoc.
    + rewrite !forallb_app, Hgen. reflexivity.
  - exists ([LogInfo ("生成第" ++ Py.str level ++ "层地牢")%string; Generate level;
             MoveTo (pos_x (dd_player_start d)) (pos_y (dd_player_start d))] ++ de).
    split.
    + rewrite Hde, Htrace. now rewrite <- !app_assoc.
    + rewrite forallb_app, Hgen. reflexivity.
Qed.

Lemma go_downstairs_events (s : GameEngine) :
  exists d, trace (final (_go_downstairs s)) = trace s ++ d
            /\ forallb descent_event d = true.
Proof.
  unfold _go_downstairs. cbv zeta. destruct (_ >=? _).
  - exists [GoDownstairs; RenderGameOver true; WaitForKey; LogInfo "玩家胜利"].
    split; [|reflexivity]. cbn. now rewrite <- !app_assoc.
  - match goal with |- context [_generate_level ?l ?s0] =>
      destruct (generate_level_events l s0) as (d & Ht & Hd) end.
    exists (GoDownstairs :: d). split.
    + rewrite Ht. cbn. now rewrite <- app_assoc.
    + cbn. apply forallb_weaken with (f := generation_event); [|exact Hd].
      intros e He. destruct e; try discriminate He; reflexivity.
Qed.

(** X10: a step onto a walkable down staircase, with a trap check that
    does not kill, still runs the trap check and the pickup check, then
    descends from the state they leave, and the action has no enemy turn:
    after the pickup only the victory screen or the events of a level
    generation follow. *)
Theorem step_onto_stairs_skips_enemy_turn (a : Action) (s : GameEngine) :
  is_move a = true ->
  enemy_free (fst (move_target a s)) (snd (move_target a s)) s ->
  is_walkable (game_map (game_state s))
              (fst (move_target a s)) (snd (move_target a s)) = true ->
  trap_kills a s = false ->
  tile_at (game_map (game_state s))
          (fst (move_target a s)) (snd (move_target a s)) = Some ">"%char ->
  exists picked d_trap msgs d,
    _handle_game_action a s = _go_downstairs picked
    /\ trace picked = trace s
         ++ MoveTo (fst (move_target a s)) (snd (move_target a s))
         :: TrapCheck (fst (move_target a s)) (snd (move_target a s))
         :: d_trap ++ PickupCheck :: map LogInfo msgs
    /\ trace (final (_handle_game_action a s)) = trace picked ++ d
    /\ forallb trap_event d_trap = true
    /\ forallb descent_event d = true
    /\ ~ In EnemyTurnPass d.
Proof.
  intros Hmove Hfree Hwalk Hsafe Htile.
  rewrite (walk_unfolds a s Hmove Hfree Hwalk). cbv zeta. rewrite Hsafe, Htile.
  cbn [stairs_or Ascii.eqb Bool.eqb andb].
  destruct (trap_step_effect (fst (move_target a s)) (snd (move_target a s)) (stepped a s))
    as (d_trap & Ht & Hd & _).
  set (after_trap := fst (trap_step _ _ (stepped a s))) in *.
  destruct (check_pickup_item_trace after_trap) as (msgs & Hp).
  destruct (go_downstairs_events (_check_pickup_item after_trap)) as (d & Hgo & Hdesc).
  exists (_check_pickup_item after_trap), d_trap, msgs, d.
  split; [reflexivity|]. split; [|split; [exact Hgo|split; [exact Hd|split; [exact Hdesc|]]]].
  - rewrite Hp, Ht. unfold stepped. cbn [trace emit set_player on_state].
    rewrite <- !app_assoc. reflexivity.
  - intros Hin. rewrite forallb_forall in Hdesc. now specialize (Hdesc _ Hin).
Qed.

(** *** Blocked moves off the left edge *)

Lemma getitem_minus_one {A : Type} (front : list A) (c : A) :
  Py.getitem (front ++ [c]) (-1) = Some c.
Proof.
  unfold Py.getitem. rewrite length_app. cbn [length].
  replace (0 <=? -1) with false by reflexivity. cbn [andb].
  replace ((- Z.of_nat (length front + 1) <=? -1) && (-1 <? 0)) with true
    by (symmetry; apply andb_true_iff; split; [apply Z.leb_le; lia|reflexivity]).
  replace (Z.to_nat (Z.of_nat (length front + 1) + -1)) with (length front) by lia.
  rewrite nth_error_app2 by lia. now rewrite Nat.sub_diag.
Qed.

(** X11: a blocked move whose target column is -1 reads the last tile of
    the target row, because the index wraps around: when that tile is the
    down staircase the move descends, although the staircase lies on the
    other edge of the grid. *)
Theorem blocked_move_wraps_to_far_staircase (a : Action) (s : GameEngine)
    (front : list ascii) :
  is_move a = true ->
  enemy_free (fst (move_target a s)) (snd (move_target a s)) s ->
  is_walkable (game_map (game_state s))
              (fst (move_target a s)) (snd (move_target a s)) = false ->
  fst (move_target a s) = -1 ->
  Py.getitem (game_map (game_state s)) (snd (move_target a s))
  = Some (front ++ [">"%char]) ->
  _handle_game_action a s = _go_downstairs s.
Proof.
  intros Hmove Hfree Hwall Hx Hrow.
  unfold _handle_game_action. rewrite Hmove, move_player_target.
  destruct (move_target a s) as [nx ny]; cbn [fst snd] in *. subst nx.
  unfold _get_enemy_at. rewrite (first_enemy_at_none _ _ _ _ Hfree).
  cbv zeta. rewrite Hwall. unfold tile_at. rewrite Hrow, getitem_minus_one.
  reflexivity.
Qed.

(** *** Actions that take no turn *)

(** X12: every action of the game mode other than a move and the wait
    returns normally without an enemy turn and leaves the floor as it was,
    apart from the message log: opening the inventory, help, saving (also a
    failed save), quitting and every action the mode does not handle. *)
Theorem idle_actions_take_no_turn (a : Action) (s : GameEngine) :
  is_move a = false -> a <> WAIT ->
  exists s' d,
    _handle_game_action a s = Returned s'
    /\ same_floor (game_state s') (game_state s)
    /\ trace s' = trace s ++ d
    /\ forallb idle_event d = true
    /\ ~ In EnemyTurnPass d.
Proof.
  intros Hmove Hwait.
  assert (Hidle : forall d, forallb idle_event d = true -> ~ In EnemyTurnPass d).
  { intros d Hd Hin. rewrite forallb_forall in Hd. now specialize (Hd _ Hin). }
  unfold _handle_game_action. rewrite Hmove.
  destruct a; try discriminate Hmove; try contradiction;
    try (exists s, []; rewrite app_nil_r; repeat split; now auto).
  - eexists. exists []. rewrite app_nil_r. repeat split; now auto.
  - eexists. exists [RenderHelp; WaitForKey]. split; [reflexivity|].
    split; [reflexivity|]. split; [|split; [reflexivity|now apply Hidle]].
    cbn. now rewrite <- app_assoc.
  - unfold save_action. destruct (save_game _ _ _) as [[|] x'].
    + eexists. eexists. split; [reflexivity|]. split; [reflexivity|].
      split; [|split; [|apply Hidle]]; [cbn; now rewrite <- app_assoc|reflexivity..].
    + eexists. eexists. split; [reflexivity|]. split; [reflexivity|].
      split; [|split; [|apply Hidle]]; [cbn; now rewrite <- app_assoc|reflexivity..].
  - eexists. exists [LogInfo "游戏结束"]. repeat split; now auto.
  - eexists. exists [LogInfo "游戏结束"]. repeat split; now auto.
Qed.

(** *** The inventory handler *)

Lemma use_selected_effect (s : GameEngine) :
  exists d,
    trace (use_selected s) = trace s ++ d
    /\ forallb inventory_event d = true
    /\ controls (use_selected s) = controls s
    /\ terrain (game_state (use_selected s)) = terrain (game_state s).
Proof.
  unfold use_selected. cbv zeta.
  destruct (selected_item_index s >=? 0);
    [|exists []; rewrite app_nil_r; now repeat split].
  destruct (get_inventory_item _ _) as [it|].
  - destruct (item_category it =? "consumable")%string.
    + destruct (use_item _ _ _ _) as [[[msg p'] es'] x'].
      exists [UseItem; LogInfo msg]. repeat split. cbn. now rewrite <- app_assoc.
    + destruct ((item_category it =? "weapon")%string || (item_category it =? "armor")%string).
      * destruct (equip_item _ _) as [msg p'].
        exists [EquipItem; LogInfo msg]. repeat split. cbn. now rewrite <- app_assoc.
      * eexists [LogInfo _]. repeat split.
  - eexists [LogInfo _]. repeat split.
Qed.

Lemma drop_selected_effect (s : GameEngine) :
  exists d,
    trace (drop_selected s) = trace s ++ d
    /\ forallb inventory_event d = true
    /\ controls (drop_selected s) = controls s
    /\ terrain (game_state (drop_selected s)) = terrain (game_state s).
Proof.
  unfold drop_selected. cbv zeta.
  destruct (selected_item_index s >=? 0);
    [|exists []; rewrite app_nil_r; now repeat split].
  destruct (remove_from_inventory _ _) as [[it|] p'].
  - eexists [LogInfo _]. repeat split.
  - exists []. rewrite app_nil_r. now repeat split.
Qed.

(** X13: no action of the inventory mode costs a turn or ends the game:
    the handler emits only rendering, item-use, equip, log and visibility
    events, never an enemy turn, and leaves the loop flag, the save slot
    and the floor geometry as they were; each of use, drop, quit, escape
    and the inventory key closes the inventory and clears the selection. *)
Theorem inventory_actions_take_no_turn (a : Action) (s : GameEngine) :
  (exists d,
     trace (_handle_inventory_action a s) = trace s ++ d
     /\ forallb inventory_event d = true
     /\ ~ In EnemyTurnPass d)
  /\ running (_handle_inventory_action a s) = running s
  /\ current_save_slot (_handle_inventory_action a s) = current_save_slot s
  /\ terrain (game_state (_handle_inventory_action a s)) = terrain (game_state s)
  /\ (is_number_key a = false ->
      In a [USE_ITEM; DROP_ITEM; QUIT; ESC; INVENTORY] ->
      showing_inventory (_handle_inventory_action a s) = false
      /\ selected_item_index (_handle_inventory_action a s) = -1).
Proof.
  assert (Hquiet : forall d, forallb inventory_event d = true -> ~ In EnemyTurnPass d).
  { intros d Hd Hin. rewrite forallb_forall in Hd. now specialize (Hd _ Hin). }
  destruct (use_selected_effect s) as (du & Htu & Hdu & Hcu & Hgu).
  destruct (drop_selected_effect s) as (dd & Htd & Hdd & Hcd & Hgd).
  injection Hcu as Hru _ _ Hsu. injection Hcd as Hrd _ _ Hsd.
  unfold _handle_inventory_action.
  destruct (is_number_key a).
  - split; [|repeat split; discriminate].
    exists [RenderInventory]. repeat split. now apply Hquiet.
  - assert (Hsame : (exists d, trace s = trace s ++ d
                               /\ forallb inventory_event d = true
                               /\ ~ In EnemyTurnPass d))
      by (exists []; rewrite app_nil_r; repeat split; now auto).
    destruct a;
      try (split; [exact Hsame|];
           split; [reflexivity|]; split; [reflexivity|]; split; [reflexivity|];
           intros _ Hin; cbn in Hin; intuition discriminate).
    + split; [|now repeat split].
      exists (du ++ [UpdateFov]). split; [|split].
      * cbn [trace _update_fov emit set_inventory_mode on_state]. rewrite Htu.
        now rewrite <- app_assoc.
      * rewrite forallb_app, Hdu. reflexivity.
      * apply Hquiet. rewrite forallb_app, Hdu. reflexivity.
    + split; [|now repeat split].
      exists (dd ++ [UpdateFov]). split; [|split].
      * cbn [trace _update_fov emit set_inventory_mode on_state]. rewrite Htd.
        now rewrite <- app_assoc.
      * rewrite forallb_app, Hdd. reflexivity.
      * apply Hquiet. rewrite forallb_app, Hdd. reflexivity.
Qed.

(** *** How much a generation spawns *)

Lemma enemy_attempts_adds (n : nat) (enemy_type : string) (cfg : EnemyConfig) :
  forall s : GameEngine,
  exists new,
    enemies (game_state (enemy_attempts n enemy_type cfg s)) = enemies (game_state s) ++ new
    /\ (length new <= 1)%nat
    /\ items (game_state (enemy_attempts n enemy_type cfg s)) = items (game_state s).
Proof.
  induction n as [|n IH]; intros s; cbn [enemy_attempts].
  - exists []. rewrite app_nil_r. now repeat split; auto.
  - destruct (get_random_walkable_position _ _) as [[q|] x'].
    + destruct (distance_exceeds _ _ _).
      * eexists [_]. now repeat split.
      * apply (IH (set_ext x' s)).
    + apply (IH (set_ext x' s)).
Qed.

Lemma spawn_loop_adds (n : nat) (available : list (string * EnemyConfig)) :
  forall s : GameEngine,
  exists new,
    enemies (game_state (spawn_loop n available s)) = enemies (game_state s) ++ new
    /\ (length new <= n)%nat
    /\ items (game_state (spawn_loop n available s)) = items (game_state s).
Proof.
  induction n as [|n IH]; intros s; cbn [spawn_loop].
  - exists []. rewrite app_nil_r. now repeat split; auto.
  - destruct available as [|d rest].
    + exists []. rewrite app_nil_r. repeat split; auto. cbn. lia.
    + unfold random_choice. destruct (random_index _ _) as [r x'].
      destruct (nth _ _ _) as [enemy_type cfg].
      destruct (enemy_attempts_adds 50 enemy_type cfg (set_ext x' s))
        as (new1 & He1 & Hl1 & Hi1).
      destruct (IH (enemy_attempts 50 enemy_type cfg (set_ext x' s)))
        as (new2 & He2 & Hl2 & Hi2).
      exists (new1 ++ new2). split; [|split].
      * rewrite He2, He1. cbn. now rewrite <- app_assoc.
      * rewrite length_app. lia.
      * now rewrite Hi2, Hi1.
Qed.

Lemma place_attempts_adds (n : nat) (it : Item) : forall s : GameEngine,
  exists new,
    items (game_state (place_attempts n it s)) = items (game_state s) ++ new
    /\ (length new <= 1)%nat
    /\ enemies (game_state (place_attempts n it s)) = enemies (game_state s).
Proof.
  induction n as [|n IH]; intros s; cbn [place_attempts].
  - exists []. rewrite app_nil_r. now repeat split; auto.
  - destruct (get_random_walkable_position _ _) as [[q|] x'].
    + eexists [_]. now repeat split.
    + apply (IH (set_ext x' s)).
Qed.

Lemma repeat_times_adds (body : GameEngine -> GameEngine) (n : nat) :
  (forall s, exists new,
      items (game_state (body s)) = items (game_state s) ++ new
      /\ (length new <= 1)%nat
      /\ enemies (game_state (body s)) = enemies (game_state s)) ->
  forall s, exists new,
      items (game_state (repeat_times n body s)) = items (game_state s) ++ new
      /\ (length new <= n)%nat
      /\ enemies (game_state (repeat_times n body s)) = enemies (game_state s).
Proof.
  intros Hbody. induction n as [|n IH]; intros s; cbn [repeat_times].
  - exists []. rewrite app_nil_r. now repeat split; auto.
  - destruct (Hbody s) as (new1 & Hi1 & Hl1 & He1).
    destruct (IH (body s)) as (new2 & Hi2 & Hl2 & He2).
    exists (new1 ++ new2). split; [|split].
    + rewrite Hi2, Hi1. now rewrite <- app_assoc.
    + rewrite length_app. lia.
    + now rewrite He2, He1.
Qed.

Lemma spawn_random_item_adds (group first : string) (others : list string)
    (s : GameEngine) :
  exists new,
    items (game_state (spawn_random_item group first others s))
    = items (game_state s) ++ new
    /\ (length new <= 1)%nat
    /\ enemies (game_state (spawn_random_item group first others s))
       = enemies (game_state s).
Proof.
  unfold spawn_random_item, random_choice, _place_item.
  destruct (random_index _ _) as [r x'].
  match goal with |- context [place_attempts 50 ?it ?s0] =>
    apply (place_attempts_adds 50 it s0) end.
Qed.

Lemma spawn_items_adds (level : Z) (s : GameEngine) :
  exists new,
    items (game_state (_spawn_items level s)) = items (game_state s) ++ new
    /\ (length new
        <= Py.range (2 + level) + (if (level >? 1)%Z then 1 else 0) + Py.range (3 + level))%nat
    /\ enemies (game_state (_spawn_items level s)) = enemies (game_state s).
Proof.
  unfold _spawn_items. cbv zeta.
  set (potions := repeat_times (Py.range (2 + level))
                    (spawn_random_item "consumables" "health_potion"
                       ["scroll_fireball"; "scroll_teleport"]) s).
  destruct (repeat_times_adds
              (spawn_random_item "consumables" "health_potion"
                 ["scroll_fireball"; "scroll_teleport"]) (Py.range (2 + level))
              (spawn_random_item_adds _ _ _) s) as (new1 & Hi1 & Hl1 & He1).
  fold potions in Hi1, He1.
  assert (Hgear : exists new,
             items (game_state
                      (if level >? 1
                       then repeat_times (Py.range 1)
                              (spawn_random_item "equipment" "sword" ["shield"; "axe"])
                              potions
                       else potions))
             = items (game_state potions) ++ new
             /\ (length new <= (if (level >? 1)%Z then 1 else 0))%nat
             /\ enemies (game_state
                      (if level >? 1
                       then repeat_times (Py.range 1)
                              (spawn_random_item "equipment" "sword" ["shield"; "axe"])
                              potions
                       else potions))
                = enemies (game_state potions)).
  { destruct (level >? 1).
    - apply (repeat_times_adds _ (Py.range 1) (spawn_random_item_adds _ _ _) potions).
    - exists []. rewrite app_nil_r. now repeat split; auto. }
  destruct Hgear as (new2 & Hi2 & Hl2 & He2).
  match goal with |- context [repeat_times ?n ?b (if ?c then ?x else ?y)] =>
    destruct (repeat_times_adds b n) with (s := if c then x else y)
      as (new3 & Hi3 & Hl3 & He3)
  end.
  { intros s0. unfold _place_item. apply place_attempts_adds. }
  exists (new1 ++ new2 ++ new3). split; [|split].
  - rewrite Hi3, Hi2, Hi1. now rewrite <- !app_assoc.
  - rewrite !length_app. lia.
  - now rewrite He3, He2, He1.
Qed.

(** X14: on the final floor [_spawn_enemies] ignores the enemy table: with
    at least one room it adds exactly one enemy, the dragon built at the
    position drawn from the last room, and logs the warning; with no room
    it raises IndexError and changes nothing. *)
Theorem boss_floor_spawns_one_dragon (level : Z) (s : GameEngine) :
  level = total_levels ->
  (rooms (game_state s) = [] -> _spawn_enemies level s = Raised IndexError s)
  /\ (forall front boss_room, rooms (game_state s) = front ++ [boss_room] ->
      let boss_pos := fst (get_random_floor_position boss_room (ext s)) in
      exists s',
        _spawn_enemies level s = Returned s'
        /\ enemies (game_state s')
           = enemies (game_state s)
             ++ [new_enemy (pos_x boss_pos) (pos_y boss_pos) "dragon"
                           (cfg_get_enemy_config "dragon")]
        /\ items (game_state s') = items (game_state s)
        /\ trace s' = trace s ++ [LogInfo boss_warning]).
Proof.
  intros ->. unfold _spawn_enemies. cbv zeta. rewrite Z.eqb_refl. split.
  - now intros ->.
  - intros front boss_room ->. rewrite getitem_minus_one.
    destruct (get_random_floor_position boss_room (ext s)) as [boss_pos x'].
    cbn [fst]. eexists. split; [reflexivity|]. now repeat split.
Qed.

Lemma spawn_enemies_adds (level : Z) (s s' : GameEngine) :
  _spawn_enemies level s = Returned s' ->
  exists new,
    enemies (game_state s') = enemies (game_state s) ++ new
    /\ (length new <= (if (level =? total_levels)%Z then 1 else Py.range (3 + level * 2)))%nat
    /\ items (game_state s') = items (game_state s).
Proof.
  unfold _spawn_enemies. cbv zeta. destruct (level =? total_levels).
  - destruct (Py.getitem _ _) as [boss_room|]; [|discriminate].
    destruct (get_random_floor_position _ _) as [boss_pos x'].
    intros [= <-]. eexists [_]. now repeat split.
  - intros [= <-]. apply spawn_loop_adds.
Qed.

(** X15: however many enemies and items the floor before held, a floor
    that [_generate_level] returns holds at most one enemy on the final
    floor and at most 3 + 2 * level on any other, and at most (2 + level)
    consumables, one piece of equipment from level 2 on and (3 + level)
    coins. *)
Theorem generated_floor_is_bounded (level : Z) (s s' : GameEngine) :
  _generate_level level s = Returned s' ->
  (length (enemies (game_state s'))
   <= (if (level =? total_levels)%Z then 1 else Py.range (3 + level * 2)))%nat
  /\ (length (items (game_state s'))
      <= Py.range (2 + level) + (if (level >? 1)%Z then 1 else 0) + Py.range (3 + level))%nat.
Proof.
  unfold _generate_level. cbv zeta.
  destruct (generate level _) as [d x'].
  match goal with |- context [_spawn_enemies level ?s6] => set (start := s6) end.
  assert (He0 : enemies (game_state start) = []) by reflexivity.
  assert (Hi0 : items (game_state start) = []) by reflexivity.
  clearbody start.
  destruct (_spawn_enemies level start) as [s7|e s7] eqn:Hspawn; [|discriminate].
  destruct (spawn_enemies_adds level start s7 Hspawn) as (new1 & He1 & Hl1 & Hi1).
  destruct (spawn_items_adds level s7) as (new2 & Hi2 & Hl2 & He2).
  destruct (generate_traps _ _ _ _ _ _) as [tr x''].
  intros [= <-].
  cbn [game_state enemies items add_message _update_fov set_traps on_state emit set_ext
       gs_set_masks gs_set_messages gs_set_traps].
  rewrite He2, He1, He0, Hi2, Hi1, Hi0. cbn [app]. split; assumption.
Qed.

(** X16: the generation of the final floor needs a room: when the
    generator returns none, [_generate_level] raises IndexError after the
    floor is already replaced, so the engine is left on the new level
    with the player at the new start and with no enemies, items or traps. *)
Theorem final_floor_needs_a_room (level : Z) (s : GameEngine) :
  level = total_levels ->
  dd_rooms (fst (generate level (ext s))) = [] ->
  exists s',
    _generate_level level s = Raised IndexError s'
    /\ current_level (game_state s') = level
    /\ position (the_player s') = dd_player_start (fst (generate level (ext s)))
    /\ enemies (game_state s') = []
    /\ items (game_state s') = []
    /\ traps (game_state s') = [].
Proof.
  intros Hlevel Hrooms. unfold _generate_level. cbv zeta.
  change (ext (emit (LogInfo ("生成第" ++ Py.str level ++ "层地牢")%string) s)) with (ext s).
  destruct (generate level (ext s)) as [d x']. cbn [fst] in Hrooms.
  match goal with |- context [_spawn_enemies level ?s6] => set (start := s6) end.
  assert (Hr : rooms (game_state start) = dd_rooms d) by reflexivity.
  assert (Hfacts : current_level (game_state start) = level
                   /\ position (the_player start) = dd_player_start d
                   /\ enemies (game_state start) = []
                   /\ items (game_state start) = []
                   /\ traps (game_state start) = []).
  { subst start. repeat split. cbn. now destruct (dd_player_start d). }
  clearbody start.
  unfold _spawn_enemies. cbv zeta. rewrite Hlevel, Z.eqb_refl, Hr, Hrooms.
  exists start. split; [reflexivity|]. now rewrite <- Hlevel.
Qed.

(** *** The game loop *)

(** X17: the loop consumes its inputs in order and returns before they are
    used up only when the game has ended: if inputs are left over, the loop
    flag of the returned engine is cleared. *)
Theorem loop_stops_only_at_game_end (inputs : list (option Action)) :
  forall (s s' : GameEngine) (rest : list (option Action)),
  _game_loop inputs s = (Returned s', rest) ->
  (exists used, inputs = used ++ rest)
  /\ (rest <> [] -> running s' = false).
Proof.
  induction inputs as [|a inputs IH]; intros s s' rest; cbn [_game_loop].
  - intros [= <- <-]. split; [now exists []|]. now intros [].
  - destruct (running s) eqn:Hrun.
    + destruct (match a with Some act => _ | None => _ end) as [s3|e s3]; [|discriminate].
      destruct (negb (player_is_alive (the_player s3))).
      * intros [= <- <-]. split; [now exists [a]|]. reflexivity.
      * intros Hloop. destruct (IH s3 s' rest Hloop) as [[used ->] Hend].
        split; [now exists (a :: used)|exact Hend].
    + intros [= <- <-]. split; [now exists []|]. now intros _.
Qed.

(** X18: when the trap check of a step kills the player, the defeat screen
    is rendered twice and a key awaited twice: once by the action resolver,
    and once more by the loop's own check of the player after the action. *)
Theorem death_by_trap_renders_defeat_twice (a : Action) (s : GameEngine)
    (rest : list (option Action)) :
  running s = true ->
  showing_inventory s = false ->
  is_move a = true ->
  enemy_free (fst (move_target a s)) (snd (move_target a s)) s ->
  is_walkable (game_map (game_state s))
              (fst (move_target a s)) (snd (move_target a s)) = true ->
  trap_kills a (emit WaitForKey s) = true ->
  exists s' d_trap,
    _game_loop (Some a :: rest) s = (Returned s', rest)
    /\ running s' = false
    /\ trace s' = trace s
         ++ WaitForKey
         :: MoveTo (fst (move_target a s)) (snd (move_target a s))
         :: TrapCheck (fst (move_target a s)) (snd (move_target a s))
         :: d_trap
         ++ [RenderGameOver false; WaitForKey; LogInfo "玩家死亡";
             RenderGameOver false; WaitForKey; LogInfo "玩家死亡"]
    /\ forallb trap_event d_trap = true.
Proof.
  intros Hrun Hshow Hmove Hfree Hwalk Hdead.
  cbn [_game_loop]. rewrite Hrun, Hshow. cbv zeta. unfold dispatch.
  change (showing_inventory (emit WaitForKey s)) with (showing_inventory s).
  rewrite Hshow.
  rewrite (walk_unfolds a (emit WaitForKey s) Hmove Hfree Hwalk). cbv zeta.
  rewrite Hdead.
  destruct (trap_step_effect (fst (move_target a (emit WaitForKey s)))
              (snd (move_target a (emit WaitForKey s))) (stepped a (emit WaitForKey s)))
    as (d_trap & Ht & Hd & _ & _ & Hkill).
  unfold trap_kills in Hdead. specialize (Hkill Hdead).
  set (after_trap := fst (trap_step _ _ (stepped a (emit WaitForKey s)))) in *.
  change (the_player (_game_over after_trap)) with (the_player after_trap).
  rewrite Hkill. cbn [negb].
  exists (_game_over (_game_over after_trap)), d_trap.
  split; [reflexivity|]. split; [reflexivity|]. split; [|exact Hd].
  cbn [trace _game_over emit set_running]. rewrite Ht. unfold stepped.
  cbn [trace emit set_player on_state]. rewrite <- !app_assoc. reflexivity.
Qed.

(** X19: [start] first generates floor 1 for the new player: if that
    fails no input is consumed; otherwise the loop runs from an engine
    whose loop flag is set, on level 1, with the player the constructor
    built moved to the generator's start, whatever position it was built
    with. *)
Theorem start_enters_floor_one (new_player : Player) (inputs : list (option Action))
    (s : GameEngine) :
  let born := set_player new_player (emit (LogInfo "游戏开始") s) in
  (forall e s2, _generate_level 1 born = Raised e s2 ->
     start new_player inputs s = (Raised e s2, inputs))
  /\ (forall s2, _generate_level 1 born = Returned s2 ->
      exists s3,
        start new_player inputs s = _game_loop inputs s3
        /\ running s3 = true
        /\ current_level (game_state s3) = 1
        /\ the_player s3
           = set_position (dd_player_start (fst (generate 1 (ext s)))) new_player
        /\ enemies (game_state s3) = enemies (game_state s2)
        /\ items (game_state s3) = items (game_state s2)).
Proof.
  cbv zeta. unfold start. cbv zeta. split.
  - now intros e s2 ->.
  - intros s2 Hgen.
    destruct (generate_level_floor 1 (set_player new_player (emit (LogInfo "游戏开始") s)))
      as (Hp & Hl & _). cbv zeta in *.
    rewrite Hgen in *. cbn [final] in *.
    eexists. split; [reflexivity|]. split; [reflexivity|].
    split; [exact Hl|]. split; [exact Hp|]. now split.
Qed.

(** *** Waiting *)

(** X20: the wait action logs its message and then runs exactly one enemy
    turn followed, last, by the visibility update, which leaves the visible
    mask computed for the player's final position; nothing else happens,
    and the player stays in place as long as no collaborator relocates the
    player. *)
Theorem wait_takes_one_turn (s : GameEngine) :
  exists s' d,
    _handle_game_action WAIT s = Returned s'
    /\ s' = _update_fov (_enemy_turn (add_message wait_message s))
    /\ trace s' = trace s ++ LogInfo wait_message :: EnemyTurnPass :: d ++ [UpdateFov]
    /\ forallb pass_event d = true
    /\ visible (game_state s')
       = compute_visible (game_map (game_state s')) (position (the_player s'))
           (width (game_state s')) (height (game_state s'))
    /\ (exists before, explored (game_state s')
                       = update_explored (visible (game_state s')) before)
    /\ (KeepsPosition -> position (the_player s') = position (the_player s)).
Proof.
  destruct (enemy_turn_then_fov (add_message wait_message s)) as (d & Ht & Hd).
  exists (_update_fov (_enemy_turn (add_message wait_message s))), d.
  split; [reflexivity|]. split; [reflexivity|].
  split; [|split; [exact Hd|split; [reflexivity|split; [now eexists|]]]].
  - rewrite Ht. cbn [trace add_message emit on_state]. now rewrite <- app_assoc.
  - intros K.
    change (position (the_player (_enemy_turn (add_message wait_message s)))
            = position (the_player s)).
    now rewrite enemy_turn_position.
Qed.

(** *** Sweeping the dead *)

Lemma enemy_loop_all_dead (todo : list Enemy) :
  forall (i : nat) (dead : list nat) (s : GameEngine),
  Forall (fun e => enemy_is_alive e = false) todo ->
  enemy_loop todo i dead s = (false, dead ++ seq i (length todo), s).
Proof.
  induction todo as [|e rest IH]; intros i dead s Hall; cbn [enemy_loop length seq].
  - now rewrite app_nil_r.
  - inversion Hall as [|? ? He Hrest]; subst. rewrite He.
    rewrite (IH (S i) (dead ++ [i]) s Hrest). now rewrite <- app_assoc.
Qed.

Lemma del_slots_from_all {A : Type} (l : list A) : forall (i : nat) (pre : list nat),
  del_slots_from i (pre ++ seq i (length l)) l = [].
Proof.
  induction l as [|h t IH]; intros i pre; cbn [del_slots_from length seq]; [reflexivity|].
  rewrite listed by (apply in_or_app; right; now left).
  replace (pre ++ i :: seq (S i) (length t)) with ((pre ++ [i]) ++ seq (S i) (length t))
    by now rewrite <- app_assoc.
  apply IH.
Qed.

(** X21: an enemy turn over a collection in which every enemy is dead,
    as an item's effect can leave it, lets no enemy act and empties the
    collection. *)
Theorem dead_enemies_are_swept (s : GameEngine) :
  Forall (fun e => enemy_is_alive e = false) (enemies (game_state s)) ->
  enemies (game_state (_enemy_turn s)) = []
  /\ pass_halted s = false
  /\ exists pm pa d,
       trace (_enemy_turn s)
       = trace s ++ EnemyTurnPass :: PurgeDead (seq 0 (length (enemies (game_state s))))
                    :: PoisonTick pm pa :: d.
Proof.
  intros Hall. unfold pass_halted, _enemy_turn. cbv zeta.
  change (enemies (game_state (emit EnemyTurnPass s))) with (enemies (game_state s)).
  rewrite (enemy_loop_all_dead _ 0 [] (emit EnemyTurnPass s) Hall). cbn [fst snd app].
  split; [|split; [reflexivity|]].
  - rewrite poison_step_enemies.
    change (enemies (game_state
                       (purge_step (seq 0 (length (enemies (game_state s))))
                          (emit EnemyTurnPass s))))
      with (del_slots_from 0 ([] ++ seq 0 (length (enemies (game_state s))))
              (enemies (game_state s))).
    apply del_slots_from_all.
  - rewrite poison_step_trace. cbv zeta. do 3 eexists.
    cbn [trace purge_step emit set_enemies on_state]. rewrite <- !app_assoc.
    reflexivity.
Qed.

End Further.

(** ** The further properties on the small implementation *)

Lemma message_log_stays_capped_witness :
  Z.of_nat (length (messages (game_state (add_message "hi" Demo.duel)))) <= 10
  /\ exists front, messages (game_state (add_message "hi" Demo.duel)) = front ++ ["hi"].
Proof.
  exact (message_log_stays_capped "hi" Demo.duel eq_refl).
Defined.

Lemma message_log_untrimmed_at_zero_witness :
  messages (game_state (@add_message Demo.types Demo.uncapped "hi" Demo.duel)) = ["hi"].
Proof.
  exact (@message_log_untrimmed_at_zero Demo.types Demo.uncapped "hi" Demo.duel eq_refl).
Defined.

Lemma buff_lasts_its_duration_witness :
  tick_times 3 (Demo.hero 0 0 20 [] 2 (Some 3))
  = set_atk 3 (set_temp_atk_duration (Some 0) (Demo.hero 0 0 20 [] 2 (Some 3))).
Proof.
  exact (proj1 (proj2 (buff_lasts_its_duration 2 (Demo.hero 0 0 20 [] 2 (Some 3)) eq_refl))).
Defined.

Lemma ascend_stops_at_top_floor_witness :
  same_floor (game_state (final (_go_upstairs Demo.duel))) (game_state Demo.duel)
  /\ trace (final (_go_upstairs Demo.duel)) = [GoUpstairs; LogInfo top_floor_message].
Proof.
  apply (proj1 (ascend_stops_at_top_floor Demo.duel)). discriminate.
Defined.

Lemma target_lookup_first_living_witness :
  nth_error (enemies (game_state Demo.duel)) 0 = Some (Demo.goblin 1 0 5 3)
  /\ enemy_is_alive (Demo.goblin 1 0 5 3) = true.
Proof.
  assert (Hfind : _get_enemy_at 1 0 Demo.duel = Some (0%nat, Demo.goblin 1 0 5 3))
    by (vm_compute; reflexivity).
  destruct (proj2 (target_lookup_first_living 1 0 Demo.duel) 0%nat
              (Demo.goblin 1 0 5 3) Hfind) as (Hnth & Halive & _).
  split; [exact Hnth|exact Halive].
Defined.

Lemma pickup_respects_capacity_witness :
  Z.of_nat (length (inventory (the_player (_check_pickup_item Demo.loaded))))
  <= max_inventory (the_player (_check_pickup_item Demo.loaded)).
Proof.
  apply (proj1 (pickup_respects_capacity Demo.loaded)). discriminate.
Defined.

Lemma step_runs_one_full_turn_witness :
  exists s' d,
    _handle_game_action MOVE_RIGHT Demo.plain = Returned s'
    /\ trace s' = trace Demo.plain ++ MoveTo 1 0 :: TrapCheck 1 0 :: d ++ [UpdateFov].
Proof.
  destruct (step_runs_one_full_turn MOVE_RIGHT Demo.plain ".")
    as (s' & d_trap & msgs & d_turn & H & _ & Ht & _).
  - reflexivity.
  - constructor.
  - reflexivity.
  - reflexivity.
  - reflexivity.
  - discriminate.
  - discriminate.
  - exists s', (d_trap ++ PickupCheck :: map LogInfo msgs ++ EnemyTurnPass :: d_turn).
    split; [exact H|]. rewrite Ht. cbn [fst snd]. do 3 f_equal.
    rewrite <- !app_assoc. cbn [app]. now rewrite <- !app_assoc.
Defined.

Lemma lethal_trap_ends_the_action_witness :
  exists s',
    @_handle_game_action Demo.types Demo.spiked MOVE_RIGHT Demo.plain = Returned s'
    /\ running s' = false.
Proof.
  destruct (@lethal_trap_ends_the_action Demo.types Demo.spiked MOVE_RIGHT Demo.plain)
    as (s' & _ & H & Hrun & _).
  - reflexivity.
  - constructor.
  - reflexivity.
  - reflexivity.
  - exists s'. now split.
Defined.

Lemma step_onto_stairs_skips_enemy_turn_witness :
  exists picked,
    @_handle_game_action Demo.types Demo.open_stairs MOVE_DOWN Demo.edge
    = @_go_downstairs Demo.types Demo.open_stairs picked.
Proof.
  destruct (@step_onto_stairs_skips_enemy_turn Demo.types Demo.open_stairs
              MOVE_DOWN Demo.edge) as (picked & _ & _ & _ & H & _).
  - reflexivity.
  - constructor.
  - reflexivity.
  - reflexivity.
  - reflexivity.
  - now exists picked.
Defined.

Lemma blocked_move_wraps_to_far_staircase_witness :
  _handle_game_action MOVE_LEFT Demo.cornered = _go_downstairs Demo.cornered.
Proof.
  apply (blocked_move_wraps_to_far_staircase MOVE_LEFT Demo.cornered ["."; "#"]%char).
  - reflexivity.
  - constructor; [|constructor]. intros (_ & Hx & _). discriminate Hx.
  - reflexivity.
  - reflexivity.
  - reflexivity.
Defined.

Lemma idle_actions_take_no_turn_witness :
  exists s' d,
    _handle_game_action HELP Demo.plain = Returned s'
    /\ trace s' = trace Demo.plain ++ d /\ ~ In EnemyTurnPass d.
Proof.
  destruct (idle_actions_take_no_turn HELP Demo.plain eq_refl)
    as (s' & d & H & _ & Ht & _ & Hno); [discriminate|].
  exists s', d. now repeat split.
Defined.

Lemma inventory_actions_take_no_turn_witness :
  showing_inventory (_handle_inventory_action USE_ITEM Demo.burning) = false
  /\ selected_item_index (_handle_inventory_action USE_ITEM Demo.burning) = -1.
Proof.
  destruct (inventory_actions_take_no_turn USE_ITEM Demo.burning) as (_ & _ & _ & _ & H).
  apply H; [reflexivity|now left].
Defined.

Lemma boss_floor_spawns_one_dragon_witness :
  exists s',
    _spawn_enemies 5 Demo.last_floor = Returned s'
    /\ enemies (game_state s') = [Demo.mkDEnemy (mkPosition 0 0) 10 5 3].
Proof.
  assert (Hfinal : 5 = total_levels) by reflexivity.
  assert (Hrooms : rooms (game_state Demo.last_floor) = [] ++ [mkPosition 0 0])
    by reflexivity.
  destruct (proj2 (boss_floor_spawns_one_dragon 5 Demo.last_floor Hfinal)
              [] (mkPosition 0 0) Hrooms) as (s' & H & He & _).
  exists s'. split; [exact H|exact He].
Defined.

Lemma generated_floor_is_bounded_witness :
  exists s',
    _generate_level 2 Demo.duel = Returned s'
    /\ (length (enemies (game_state s')) <= 7)%nat
    /\ (length (items (game_state s')) <= 10)%nat.
Proof.
  destruct (_generate_level 2 Demo.duel) as [s'|e s'] eqn:Hgen.
  - exists s'. split; [reflexivity|].
    exact (generated_floor_is_bounded 2 Demo.duel s' Hgen).
  - vm_compute in Hgen. discriminate Hgen.
Defined.

Lemma final_floor_needs_a_room_witness :
  exists s', @_generate_level Demo.types Demo.roomless 5 Demo.plain = Raised IndexError s'.
Proof.
  assert (Hfinal : 5 = @total_levels Demo.types Demo.roomless) by reflexivity.
  assert (Hrooms : dd_rooms (fst (@generate Demo.types Demo.roomless 5 (ext Demo.plain))) = [])
    by reflexivity.
  destruct (@final_floor_needs_a_room Demo.types Demo.roomless 5 Demo.plain Hfinal Hrooms)
    as (s' & H & _).
  now exists s'.
Defined.

Lemma loop_stops_only_at_game_end_witness :
  exists s',
    _game_loop [Some QUIT; Some WAIT] Demo.plain = (Returned s', [Some WAIT])
    /\ running s' = false.
Proof.
  pose (r := _game_loop [Some QUIT; Some WAIT] Demo.plain).
  assert (H : r = (Returned (final (fst r)), [Some WAIT])) by (vm_compute; reflexivity).
  exists (final (fst r)). split; [exact H|].
  apply (proj2 (loop_stops_only_at_game_end _ _ _ _ H)). discriminate.
Defined.

Lemma death_by_trap_renders_defeat_twice_witness :
  exists s',
    @_game_loop Demo.types Demo.spiked [Some MOVE_RIGHT; Some WAIT] Demo.plain
    = (Returned s', [Some WAIT])
    /\ running s' = false.
Proof.
  destruct (@death_by_trap_renders_defeat_twice Demo.types Demo.spiked
              MOVE_RIGHT Demo.plain [Some WAIT]) as (s' & _ & H & Hrun & _).
  - reflexivity.
  - reflexivity.
  - reflexivity.
  - constructor.
  - reflexivity.
  - reflexivity.
  - exists s'. now split.
Defined.

Lemma start_enters_floor_one_witness :
  exists s3,
    start (Demo.hero 1 1 20 [] 2 None) [] Demo.plain = _game_loop [] s3
    /\ running s3 = true
    /\ the_player s3 = Demo.hero 0 0 20 [] 2 None.
Proof.
  pose proof (start_enters_floor_one (Demo.hero 1 1 20 [] 2 None) [] Demo.plain) as H.
  cbv zeta in H. destruct H as [_ H].
  destruct (_generate_level 1 _) as [s2|e s2] eqn:Hgen.
  - destruct (H s2 eq_refl) as (s3 & Hs & Hr & _ & Hp & _).
    exists s3. split; [exact Hs|]. split; [exact Hr|exact Hp].
  - vm_compute in Hgen. discriminate Hgen.
Defined.

Lemma wait_takes_one_turn_witness :
  exists s' d,
    _handle_game_action WAIT Demo.duel = Returned s'
    /\ trace s' = LogInfo wait_message :: EnemyTurnPass :: d ++ [UpdateFov]
    /\ position (the_player s') = mkPosition 0 0.
Proof.
  destruct (wait_takes_one_turn Demo.duel) as (s' & d & H & _ & Ht & _ & _ & _ & Hpos).
  exists s', d. split; [exact H|]. split; [exact Ht|exact (Hpos demo_keeps_position)].
Defined.

Lemma dead_enemies_are_swept_witness :
  enemies (game_state
             (_enemy_turn (_handle_inventory_action USE_ITEM Demo.burning))) = [].
Proof.
  apply (dead_enemies_are_swept (_handle_inventory_action USE_ITEM Demo.burning)).
  constructor; [reflexivity|constructor].
Defined.
